(** * ldap2jira: the LDAP to JIRA user map (src/ldap2jira/map.py)

    A shallow embedding of [LDAP2JiraUserMap]: the constructor's credential
    check, the match scorer [_ldap_jira_match], the per-user worker
    [_process_username] and the batch entry point [find_jira_accounts].

    Conventions.
    - Python [str] is [string]; a [dict] with string keys is a [gmap string _];
      a Python [set] of strings is a [gset string] (no iteration order); a
      Python [list] is a [list].
    - An optional argument defaulting to [None] is an [option]; truthiness of
      such a value is [truthy].
    - The two adapters (the LDAP lookup and the JIRA client) and the file
      readers are oracles passed as records of functions.
    - Every call to an adapter and every log record is written to a trace, in
      program order; a raised exception ends the run. *)

From stdpp Require Import gmap strings list fin_maps.
From Stdlib Require Import ZArith Ascii.


(** ** Python string helpers *)

(** [s.endswith(suffix)]: some tail of [s] is [suffix]. *)
Fixpoint endswith (s suffix : string) : bool :=
  if String.eqb s suffix then true
  else match s with
       | EmptyString => false
       | String _ s' => endswith s' suffix
       end.

(** [s.lstrip(c)] for a one-character argument: drop every leading [c]. *)
Fixpoint lstrip (c : ascii) (s : string) : string :=
  match s with
  | EmptyString => EmptyString
  | String a s' => if Ascii.eqb a c then lstrip c s' else s
  end.

(** Truthiness of a string that may be [None]: [None] and the empty string
    are false. *)
Definition truthy (o : option string) : bool :=
  match o with
  | Some (String _ _) => true
  | _ => false
  end.

(** ** Exceptions, log records, trace *)

Inductive exn : Type :=
  | ValueError (msg : string)
  | AttributeError (attr : string)
  | IndexError.

Inductive level : Type := DEBUG | INFO | WARNING | ERROR.

(** The [log_extra] argument of [_update_user]: a text, or the text
    'Possible matches: ' followed by the join of a set (whose rendering
    depends on the set's iteration order, so the set itself is kept). *)
Inductive extra : Type :=
  | ExtraText (s : string)
  | ExtraPossible (names : gset string).

(** One constructor per logging call of the module. *)
Inductive log_msg : Type :=
  | MsgMapFileMissing (filename : string)
  | MsgJiraSearch (query : string)
  | MsgNoJiraValues (attr : string)
  | MsgTrying (display username email : string)
  | MsgMatch
  | MsgPartialMatch
  | MsgNoMatch
  | MsgJiraAccount (status username : string) (log_extra : extra)
  | MsgProcess (username : string)
  | MsgMultipleLdap (username : string)
  | MsgFieldMissing (field : string).

Inductive event : Type :=
  | LdapQuery (query : string) (query_fields : list string)
              (return_fields : gset string)
  | JiraSearchUsers (query : string) (maxResults : Z)
  | Log (lvl : level) (msg : log_msg).

(** A run: the trace it wrote, and either the exception it raised or its
    value. *)
Definition M (A : Type) : Type := list event * (exn + A).

Definition ret {A} (a : A) : M A := ([], inr a).

Definition bind {A B} (m : M A) (k : A -> M B) : M B :=
  match m with
  | (t, inl e) => (t, inl e)
  | (t, inr a) => (t ++ fst (k a), snd (k a))
  end.

Definition raise {A} (e : exn) : M A := ([], inl e).

Definition emit (ev : event) : M unit := ([ev], inr tt).

Definition log (lvl : level) (msg : log_msg) : M unit := emit (Log lvl msg).

Definition trace {A} (m : M A) : list event := fst m.
Definition outcome {A} (m : M A) : exn + A := snd m.

Notation "'let*' x ':=' m 'in' k" := (bind m (fun x => k))
  (at level 10, x name, m at level 100, k at level 200).
Notation "m ';;' k" := (bind m (fun _ => k))
  (at level 100, k at level 200, right associativity).

(** ** Data model *)

(** A JIRA account object as returned by the search; an attribute may be
    missing, reading it then raises [AttributeError]. *)
Record jira_user : Type := {
  name : option string;
  emailAddress : option string;
  displayName : option string
}.

(** The instance. [map_] is the attribute [self.map]. The lazily built
    client handles and [jira_extra_kwargs] only configure the adapters. *)
Record LDAP2JiraUserMap : Type := {
  jira_url : string;
  jira_user_ : option string;
  jira_password : option string;
  jira_auth_token : option string;
  ldap_url : string;
  ldap_base : string;
  ldap_query_fields_username : list string;
  ldap_fields_username : list string;
  ldap_fields_mail : list string;
  ldap_fields_name : list string;
  ldap_fields_jira_search : list string;
  email_domain : string;
  map_file : option string;
  map_ : gmap string string
}.

(** The keyword arguments of the constructor. *)
Record kwargs : Type := {
  kw_jira_url : string;
  kw_ldap_url : string;
  kw_ldap_base : string;
  kw_ldap_query_fields_username : list string;
  kw_ldap_fields_username : list string;
  kw_ldap_fields_mail : list string;
  kw_ldap_fields_name : list string;
  kw_ldap_fields_jira_search : list string;
  kw_email_domain : string;
  kw_map_file : option string;
  kw_jira_user : option string;
  kw_jira_password : option string;
  kw_jira_auth_token : option string
}.

(** The adapters: [self.ldap.query] and [self.jira.search_users]. *)
Record adapters : Type := {
  LDAPLookup_query :
    string -> list string -> gset string -> list (gmap string string);
  JIRA_search_users : string -> Z -> list jira_user
}.

(** What [load_map] reads: [os.path.exists], [os.path.splitext(...)[1]],
    [json.load] of a flat object, and the rows of [csv.reader]. A path that
    exists is taken to be a file that [open], [json.load] and [csv.reader]
    read without raising. *)
Record files : Type := {
  path_exists : string -> bool;
  splitext_ext : string -> string;
  json_load : string -> gmap string string;
  csv_reader : string -> list (list string)
}.

(** The per-user dict; each of its four keys may be absent. *)
Record user_dict : Type := {
  ud_username : option string;
  ud_status : option string;
  ud_jira_account : option string;
  ud_jira_results : option (gset string)
}.

Definition NO_MATCH : Z := 0.
Definition PARTIAL_MATCH : Z := 1.
Definition MATCH : Z := 2.

(** ** The constructor (lines 85-130) *)

(** Lines 108-130: the attributes the constructor sets. *)
Definition new_instance (kw : kwargs) : LDAP2JiraUserMap :=
  {| jira_url := kw_jira_url kw;
     jira_user_ := kw_jira_user kw;
     jira_password := kw_jira_password kw;
     jira_auth_token := kw_jira_auth_token kw;
     ldap_url := kw_ldap_url kw;
     ldap_base := kw_ldap_base kw;
     ldap_query_fields_username := kw_ldap_query_fields_username kw;
     ldap_fields_username := kw_ldap_fields_username kw;
     ldap_fields_mail := kw_ldap_fields_mail kw;
     ldap_fields_name := kw_ldap_fields_name kw;
     ldap_fields_jira_search := kw_ldap_fields_jira_search kw;
     email_domain := lstrip "@" (kw_email_domain kw);
     map_file := kw_map_file kw;
     map_ := ∅ |}.

(** Lines 102-106 raise before any attribute is set. *)
Definition __init__ (kw : kwargs) : exn + LDAP2JiraUserMap :=
  if truthy (kw_jira_user kw) || truthy (kw_jira_password kw) then
    if negb (truthy (kw_jira_user kw) && truthy (kw_jira_password kw)) then
      inl (ValueError "JIRA user and password required for basic auth.")
    else inr (new_instance kw)
  else if negb (truthy (kw_jira_auth_token kw)) then
    inl (ValueError "JIRA user/password or auth token required.")
  else inr (new_instance kw).

(** ** The adapters as methods (lines 176-191) *)

Definition ldap_query (env : adapters) (self : LDAP2JiraUserMap)
    (query : string) : M (list (gmap string string)) :=
  let return_fields : gset string :=
    list_to_set (ldap_fields_username self ++ ldap_fields_mail self
                 ++ ldap_fields_jira_search self) in
  emit (LdapQuery query (ldap_query_fields_username self) return_fields);;
  ret (LDAPLookup_query env query (ldap_query_fields_username self)
         return_fields).

Definition jira_search_user (env : adapters) (query : string)
    : M (list jira_user) :=
  log INFO (MsgJiraSearch query);;
  emit (JiraSearchUsers query 10);;
  ret (JIRA_search_users env query 10).

(** ** The match scorer (lines 193-244) *)

(** [{ldap_account[f] for f in fields if f in ldap_account}] *)
Definition ldap_values (ldap_account : gmap string string)
    (fields : list string) : gset string :=
  list_to_set (omap (fun f => ldap_account !! f) fields).

Definition _ldap_jira_match (self : LDAP2JiraUserMap)
    (ldap_account : gmap string string) (jira_account : jira_user) : M Z :=
  match name jira_account with
  | None => log WARNING (MsgNoJiraValues "name");; ret NO_MATCH
  | Some jira_username =>
    match emailAddress jira_account with
    | None => log WARNING (MsgNoJiraValues "emailAddress");; ret NO_MATCH
    | Some jira_email =>
      match displayName jira_account with
      | None => log WARNING (MsgNoJiraValues "displayName");; ret NO_MATCH
      | Some display =>
        let jira_names : gset string := {[ jira_username; display ]} in
        log DEBUG (MsgTrying display jira_username jira_email);;
        if endswith jira_email ("@" +:+ email_domain self) then
          let ldap_emails := ldap_values ldap_account (ldap_fields_mail self) in
          let ldap_usernames :=
            ldap_values ldap_account (ldap_fields_username self) in
          let email_match := bool_decide (jira_email ∈ ldap_emails) in
          let username_match :=
            bool_decide (jira_username ∈ ldap_usernames) in
          if email_match || username_match then
            log DEBUG MsgMatch;; ret MATCH
          else
            let ldap_names :=
              ldap_values ldap_account (ldap_fields_name self) in
            if bool_decide (jira_names ∩ ldap_names ≠ ∅) then
              log DEBUG MsgPartialMatch;; ret PARTIAL_MATCH
            else log DEBUG MsgNoMatch;; ret NO_MATCH
        else log DEBUG MsgNoMatch;; ret NO_MATCH
      end
    end
  end.

(** ** [_update_user] (lines 246-260) *)

Definition with_status (ud : user_dict) (status : string) : user_dict :=
  {| ud_username := ud_username ud; ud_status := Some status;
     ud_jira_account := ud_jira_account ud;
     ud_jira_results := ud_jira_results ud |}.

Definition with_jira_account (ud : user_dict) (account : string) : user_dict :=
  {| ud_username := ud_username ud; ud_status := ud_status ud;
     ud_jira_account := Some account;
     ud_jira_results := ud_jira_results ud |}.

Definition with_jira_results (ud : user_dict) (names : gset string)
    : user_dict :=
  {| ud_username := ud_username ud; ud_status := ud_status ud;
     ud_jira_account := ud_jira_account ud;
     ud_jira_results := Some names |}.

(** The default [log_extra=''] of [_update_user]. *)
Definition no_extra : extra := ExtraText EmptyString.

Definition _update_user (ud : user_dict) (username status : string)
    (log_extra : extra) (lvl : level) : M user_dict :=
  let ud := with_status ud status in
  log lvl (MsgJiraAccount status username log_extra);;
  ret ud.

(** ** [_process_username] (lines 262-362) *)

(** Lines 299-310: the values to search JIRA for, in order. *)
Fixpoint collect_jira_queries (ldap_account : gmap string string)
    (fields : list string) (jira_queries : list string) : M (list string) :=
  match fields with
  | [] => ret jira_queries
  | field :: fields' =>
    match ldap_account !! field with
    | Some (String _ _ as value) =>
      if bool_decide (value ∈ jira_queries)
      then collect_jira_queries ldap_account fields' jira_queries
      else collect_jira_queries ldap_account fields' (jira_queries ++ [value])
    | _ =>
      log DEBUG (MsgFieldMissing field);;
      collect_jira_queries ldap_account fields' jira_queries
    end
  end.

(** The local variables the two nested loops update. *)
Record locals : Type := {
  jira_account_usernames : gset string;
  partial_single_matches : list string;
  l_user_dict : user_dict
}.

(** Lines 320-337: the loop over the accounts one search returned; a
    [break] is the return without a recursive call. *)
Fixpoint candidates_loop (self : LDAP2JiraUserMap)
    (ldap_account : gmap string string) (single_result : bool)
    (result_jira_accounts : list jira_user) (st : locals) : M locals :=
  match result_jira_accounts with
  | [] => ret st
  | jira_account :: rest =>
    match name jira_account with
    | None => raise (AttributeError "name")
    | Some n =>
      if bool_decide (n ∈ jira_account_usernames st) && negb single_result
      then candidates_loop self ldap_account single_result rest st
      else
        let seen := jira_account_usernames st ∪ {[ n ]} in
        let* match_ := _ldap_jira_match self ldap_account jira_account in
        if (match_ =? MATCH)%Z then
          let* ud := _update_user (l_user_dict st) n "found" no_extra INFO in
          ret {| jira_account_usernames := seen;
                 partial_single_matches := partial_single_matches st;
                 l_user_dict := with_jira_account ud n |}
        else
          let partials :=
            if (match_ =? PARTIAL_MATCH)%Z && single_result then
              if bool_decide (n ∈ partial_single_matches st)
              then partial_single_matches st
              else partial_single_matches st ++ [n]
            else partial_single_matches st in
          candidates_loop self ldap_account single_result rest
            {| jira_account_usernames := seen;
               partial_single_matches := partials;
               l_user_dict := l_user_dict st |}
    end
  end.

(** Lines 316-341: the loop over the search values. *)
Fixpoint seed_loop (env : adapters) (self : LDAP2JiraUserMap)
    (ldap_account : gmap string string) (jira_queries : list string)
    (st : locals) : M locals :=
  match jira_queries with
  | [] => ret st
  | query :: rest =>
    let* result_jira_accounts := jira_search_user env query in
    let single_result := (length result_jira_accounts =? 1)%nat in
    let* st' := candidates_loop self ldap_account single_result
                  result_jira_accounts st in
    if bool_decide (is_Some (ud_jira_account (l_user_dict st')))
    then ret st'
    else seed_loop env self ldap_account rest st'
  end.

(** Lines 343-362: the verdict from the locals the loops left. *)
Definition verdict (username : string) (st : locals) : M user_dict :=
  if bool_decide (jira_account_usernames st = ∅) then
    _update_user (l_user_dict st) username "missing" no_extra WARNING
  else
    let* ud :=
      match partial_single_matches st with
      | [p] =>
        let* ud := _update_user (l_user_dict st) p "found"
                     (ExtraText "Single Partial") INFO in
        ret (with_jira_account ud p)
      | _ => ret (l_user_dict st)
      end in
    match ud_jira_account ud with
    | Some _ => ret ud
    | None =>
      let ud := with_jira_results ud (jira_account_usernames st) in
      _update_user ud username "ambiguous"
        (ExtraPossible (jira_account_usernames st)) WARNING
    end.

Definition new_user_dict (username : string) : user_dict :=
  {| ud_username := Some username; ud_status := None;
     ud_jira_account := None; ud_jira_results := None |}.

Definition new_locals (ud : user_dict) : locals :=
  {| jira_account_usernames := ∅; partial_single_matches := [];
     l_user_dict := ud |}.

Definition _process_username (env : adapters) (self : LDAP2JiraUserMap)
    (username : string) : M user_dict :=
  let user_dict := new_user_dict username in
  if negb (truthy (Some username)) then ret user_dict
  else
    log INFO (MsgProcess username);;
    match map_ self !! username with
    | Some account =>
      let* ud := _update_user user_dict account "found"
                   (ExtraText "File Map") INFO in
      ret (with_jira_account ud account)
    | None =>
      let* ldap_results := ldap_query env self username in
      match ldap_results with
      | [] => _update_user user_dict username "not_in_ldap" no_extra WARNING
      | _ :: _ :: _ =>
        let* ud := _update_user user_dict username "missing" no_extra
                     WARNING in
        log ERROR (MsgMultipleLdap username);;
        ret ud
      | [ldap_account] =>
        let* jira_queries :=
          collect_jira_queries ldap_account (ldap_fields_jira_search self)
            [] in
        let* st := seed_loop env self ldap_account jira_queries
                     (new_locals user_dict) in
        verdict username st
      end
    end.

(** ** [load_map] (lines 155-174) *)

(** The dict comprehension over the csv rows: a short row raises, a later
    row replaces an earlier one with the same first column. *)
Fixpoint csv_map (rows : list (list string)) (fmap : gmap string string)
    : M (gmap string string) :=
  match rows with
  | [] => ret fmap
  | val_list :: rows' =>
    match val_list !! 0%nat, val_list !! 1%nat with
    | Some k, Some v => csv_map rows' (<[k := v]> fmap)
    | _, _ => raise IndexError
    end
  end.

Definition load_map (fs : files) (filename : option string)
    : M (gmap string string) :=
  match filename with
  | Some (String _ _ as filename) =>
    if negb (path_exists fs filename) then
      log WARNING (MsgMapFileMissing filename);; ret ∅
    else
      let file_extension := splitext_ext fs filename in
      let fmap : gmap string string :=
        if bool_decide (file_extension = ".json")
        then json_load fs filename else ∅ in
      if bool_decide (file_extension = ".csv")
      then csv_map (csv_reader fs filename) ∅
      else ret fmap
  | _ => ret ∅
  end.

(** ** [find_jira_accounts] (lines 364-421) *)

Definition with_map (self : LDAP2JiraUserMap) (m : gmap string string)
    : LDAP2JiraUserMap :=
  {| jira_url := jira_url self; jira_user_ := jira_user_ self;
     jira_password := jira_password self;
     jira_auth_token := jira_auth_token self;
     ldap_url := ldap_url self; ldap_base := ldap_base self;
     ldap_query_fields_username := ldap_query_fields_username self;
     ldap_fields_username := ldap_fields_username self;
     ldap_fields_mail := ldap_fields_mail self;
     ldap_fields_name := ldap_fields_name self;
     ldap_fields_jira_search := ldap_fields_jira_search self;
     email_domain := email_domain self;
     map_file := map_file self;
     map_ := m |}.

(** [user_d.pop('username')] *)
Definition pop_username (ud : user_dict) : option string * user_dict :=
  (ud_username ud,
   {| ud_username := None; ud_status := ud_status ud;
      ud_jira_account := ud_jira_account ud;
      ud_jira_results := ud_jira_results ud |}).

(** Lines 413-419: the results are collected in the order the workers
    complete, [completed] here; a worker's exception is raised again by
    [result()]. The workers' traces interleave and are not kept. *)
Fixpoint collect_users (env : adapters) (self : LDAP2JiraUserMap)
    (completed : list string) (users : gmap string user_dict)
    : exn + gmap string user_dict :=
  match completed with
  | [] => inr users
  | username :: rest =>
    match outcome (_process_username env self username) with
    | inl e => inl e
    | inr user_d =>
      match pop_username user_d with
      | (Some (String _ _ as username), user_d) =>
        collect_users env self rest (<[username := user_d]> users)
      | _ => collect_users env self rest users
      end
    end
  end.

(** The call mutates [self.map] before any worker starts, so the instance
    after the call is returned beside the result, also when the call raises
    after the update. Only the outcome of [load_map] is used here; its one
    log record is in the trace of [load_map]. *)
Definition find_jira_accounts (fs : files) (env : adapters)
    (self : LDAP2JiraUserMap) (usernames : list string)
    : LDAP2JiraUserMap * (exn + gmap string user_dict) :=
  match outcome (load_map fs (map_file self)) with
  | inl e => (self, inl e)
  | inr loaded =>
    let self' := with_map self (loaded ∪ map_ self) in
    (self', collect_users env self' usernames ∅)
  end.

(** The call with its [max_workers] argument. The pool of line 408 is
    created after the map was merged at line 406, and its constructor
    refuses a number of workers that is not positive. [find_jira_accounts]
    above is the call with [max_workers] left at its default [None]. *)
Definition find_jira_accounts_workers (fs : files) (env : adapters)
    (self : LDAP2JiraUserMap) (usernames : list string)
    (max_workers : option Z)
    : LDAP2JiraUserMap * (exn + gmap string user_dict) :=
  match outcome (load_map fs (map_file self)) with
  | inl e => (self, inl e)
  | inr loaded =>
    let self' := with_map self (loaded ∪ map_ self) in
    match max_workers with
    | Some n =>
      if (n <=? 0)%Z
      then (self', inl (ValueError "max_workers must be greater than 0"))
      else (self', collect_users env self' usernames ∅)
    | None => (self', collect_users env self' usernames ∅)
    end
  end.

(** ** Definitions that follow the specification's words *)

(** Keep the first occurrence of every value, in order. *)
Fixpoint first_seen (l : list string) : list string :=
  match l with
  | [] => []
  | x :: l' => x :: filter (fun y => y ≠ x) (first_seen l')
  end.

(** The value of a configured field in a record, when the field is present
    and its value is not empty. *)
Definition field_value (ldap_account : gmap string string) (field : string)
    : option string :=
  match ldap_account !! field with
  | Some (String _ _ as value) => Some value
  | _ => None
  end.

(** Section 4.2 step 3: the fields in configured order, absent or empty ones
    skipped, a value already collected skipped. *)
Definition seed_sequence_spec (ldap_account : gmap string string)
    (fields : list string) : list string :=
  first_seen (omap (field_value ldap_account) fields).

(** The account names the searches for [jira_queries] return, in the order
    the searches return them. *)
Definition observed (env : adapters) (jira_queries : list string)
    : list string :=
  concat (List.map (fun q => omap name (JIRA_search_users env q 10))
            jira_queries).

(** ** Fixtures *)

Definition kw_example : kwargs :=
  {| kw_jira_url := "https://issues.corp.com";
     kw_ldap_url := "ldap://ldap.corp.com";
     kw_ldap_base := "ou=users,dc=corp,dc=com";
     kw_ldap_query_fields_username := ["uid"];
     kw_ldap_fields_username := ["uid"];
     kw_ldap_fields_mail := ["mail"];
     kw_ldap_fields_name := ["cn"];
     kw_ldap_fields_jira_search := ["cn"; "uid"; "mail"];
     kw_email_domain := "corp.com";
     kw_map_file := None;
     kw_jira_user := None;
     kw_jira_password := None;
     kw_jira_auth_token := Some "t0k3n" |}.

Definition with_credentials (kw : kwargs)
    (user password token : option string) : kwargs :=
  {| kw_jira_url := kw_jira_url kw;
     kw_ldap_url := kw_ldap_url kw;
     kw_ldap_base := kw_ldap_base kw;
     kw_ldap_query_fields_username := kw_ldap_query_fields_username kw;
     kw_ldap_fields_username := kw_ldap_fields_username kw;
     kw_ldap_fields_mail := kw_ldap_fields_mail kw;
     kw_ldap_fields_name := kw_ldap_fields_name kw;
     kw_ldap_fields_jira_search := kw_ldap_fields_jira_search kw;
     kw_email_domain := kw_email_domain kw;
     kw_map_file := kw_map_file kw;
     kw_jira_user := user;
     kw_jira_password := password;
     kw_jira_auth_token := token |}.

Definition with_email_domain (kw : kwargs) (domain : string) : kwargs :=
  {| kw_jira_url := kw_jira_url kw;
     kw_ldap_url := kw_ldap_url kw;
     kw_ldap_base := kw_ldap_base kw;
     kw_ldap_query_fields_username := kw_ldap_query_fields_username kw;
     kw_ldap_fields_username := kw_ldap_fields_username kw;
     kw_ldap_fields_mail := kw_ldap_fields_mail kw;
     kw_ldap_fields_name := kw_ldap_fields_name kw;
     kw_ldap_fields_jira_search := kw_ldap_fields_jira_search kw;
     kw_email_domain := domain;
     kw_map_file := kw_map_file kw;
     kw_jira_user := kw_jira_user kw;
     kw_jira_password := kw_jira_password kw;
     kw_jira_auth_token := kw_jira_auth_token kw |}.

Definition self_example : LDAP2JiraUserMap := new_instance kw_example.

(** The directory record of user bob. *)
Definition bob_record : gmap string string :=
  {[ "uid" := "bob"; "cn" := "Bob Brown"; "mail" := "bob@corp.com" ]}.

Definition account (n e d : string) : jira_user :=
  {| name := Some n; emailAddress := Some e; displayName := Some d |}.

(** A directory that knows bob only. *)
Definition directory_bob (query : string) (query_fields : list string)
    (return_fields : gset string) : list (gmap string string) :=
  if bool_decide (query = "bob") then [bob_record] else [].

(** A directory with two records for every query. *)
Definition directory_twice (query : string) (query_fields : list string)
    (return_fields : gset string) : list (gmap string string) :=
  [bob_record; bob_record].

Definition no_accounts (query : string) (maxResults : Z) : list jira_user :=
  [].

(** Searching the full name gives one account that matches by display name
    only; searching the user name gives two accounts, the first with bob's
    email. *)
Definition search_partial_then_match (query : string) (maxResults : Z)
    : list jira_user :=
  if bool_decide (query = "Bob Brown") then
    [account "bbrown" "bbrown@corp.com" "Bob Brown"]
  else if bool_decide (query = "bob") then
    [account "bob" "bob@corp.com" "Robert Brown";
     account "bobcat" "bobcat@corp.com" "Bob Cat"]
  else [].

(** Searching the full name gives one account that matches by display name
    only; the other searches give nothing. *)
Definition search_single_partial (query : string) (maxResults : Z)
    : list jira_user :=
  if bool_decide (query = "Bob Brown") then
    [account "bbrown" "bbrown@corp.com" "Bob Brown"]
  else [].

(** Searching the full name gives two accounts that match by display name
    only, in one order or the other. *)
Definition search_two_partial (swap : bool) (query : string) (maxResults : Z)
    : list jira_user :=
  if bool_decide (query = "Bob Brown") then
    if swap then
      [account "brownb" "brownb@corp.com" "Bob Brown";
       account "bbrown" "bbrown@corp.com" "Bob Brown"]
    else
      [account "bbrown" "bbrown@corp.com" "Bob Brown";
       account "brownb" "brownb@corp.com" "Bob Brown"]
  else [].

Definition env_partial_then_match : adapters :=
  {| LDAPLookup_query := directory_bob;
     JIRA_search_users := search_partial_then_match |}.

Definition env_single_partial : adapters :=
  {| LDAPLookup_query := directory_bob;
     JIRA_search_users := search_single_partial |}.

Definition env_two_partial (swap : bool) : adapters :=
  {| LDAPLookup_query := directory_bob;
     JIRA_search_users := search_two_partial swap |}.

Definition env_twice : adapters :=
  {| LDAPLookup_query := directory_twice;
     JIRA_search_users := no_accounts |}.

(** The values searched for bob, in order. *)
Definition bob_queries : list string := ["Bob Brown"; "bob"; "bob@corp.com"].

(** Successive calls on one instance: each call has its own state of the
    files and of the adapters, and its own list of user names. *)
Fixpoint run_batches (self : LDAP2JiraUserMap)
    (calls : list (files * adapters * list string)) : LDAP2JiraUserMap :=
  match calls with
  | [] => self
  | (fs, env, usernames) :: calls' =>
    run_batches (fst (find_jira_accounts fs env self usernames)) calls'
  end.

(** A json map file with the given content, at any path. *)
Definition json_file (content : gmap string string) : files :=
  {| path_exists := fun _ => true;
     splitext_ext := fun _ => ".json";
     json_load := fun _ => content;
     csv_reader := fun _ => [] |}.

Definition with_map_file (self : LDAP2JiraUserMap) (filename : option string)
    : LDAP2JiraUserMap :=
  {| jira_url := jira_url self; jira_user_ := jira_user_ self;
     jira_password := jira_password self;
     jira_auth_token := jira_auth_token self;
     ldap_url := ldap_url self; ldap_base := ldap_base self;
     ldap_query_fields_username := ldap_query_fields_username self;
     ldap_fields_username := ldap_fields_username self;
     ldap_fields_mail := ldap_fields_mail self;
     ldap_fields_name := ldap_fields_name self;
     ldap_fields_jira_search := ldap_fields_jira_search self;
     email_domain := email_domain self;
     map_file := filename;
     map_ := map_ self |}.

(** An event that is a call to one of the two adapters. *)
Definition is_adapter_call (ev : event) : bool :=
  match ev with
  | LdapQuery _ _ _ | JiraSearchUsers _ _ => true
  | Log _ _ => false
  end.

Definition is_jira_search (ev : event) : bool :=
  match ev with
  | JiraSearchUsers _ _ => true
  | _ => false
  end.

(** ** The dict [jira_kwargs] of the [jira] property (lines 142-149)

    Line 151 passes this dict to the client constructor together with
    [self.jira_extra_kwargs]; the extra arguments and the constructor call
    are not modelled, only the dict the property builds itself. *)

(** The credentials entry of the dict: the key 'basic_auth' with the pair,
    or the key 'token_auth' with the token. *)
Inductive jira_auth : Type :=
  | basic_auth (user password : option string)
  | token_auth (token : option string).

Record jira_kwargs : Type := {
  options_server : string;
  get_server_info : bool;
  auth : jira_auth
}.

Definition build_jira_kwargs (self : LDAP2JiraUserMap) : jira_kwargs :=
  {| options_server := jira_url self;
     get_server_info := false;
     auth := if truthy (jira_password self)
             then basic_auth (jira_user_ self) (jira_password self)
             else token_auth (jira_auth_token self) |}.

(** The [return_fields] of [ldap_query] (lines 177-181). *)
Definition return_fields (self : LDAP2JiraUserMap) : gset string :=
  list_to_set (ldap_fields_username self ++ ldap_fields_mail self
               ++ ldap_fields_jira_search self).

(** ** More fixtures *)

(** A search whose only result has no [name] attribute. *)
Definition search_nameless (query : string) (maxResults : Z)
    : list jira_user :=
  [{| name := None; emailAddress := Some "x@corp.com";
      displayName := Some "Bob Brown" |}].

Definition env_nameless : adapters :=
  {| LDAPLookup_query := directory_bob;
     JIRA_search_users := search_nameless |}.

Definition env_no_accounts : adapters :=
  {| LDAPLookup_query := directory_bob;
     JIRA_search_users := no_accounts |}.

(** A csv map file with the given rows, at any path. *)
Definition csv_file (rows : list (list string)) : files :=
  {| path_exists := fun _ => true;
     splitext_ext := fun _ => ".csv";
     json_load := fun _ => ∅;
     csv_reader := fun _ => rows |}.

(** No file at any path. *)
Definition no_file : files :=
  {| path_exists := fun _ => false;
     splitext_ext := fun _ => ".json";
     json_load := fun _ => ∅;
     csv_reader := fun _ => [] |}.

(** An instance whose search fields leave out the name field cn. *)
Definition self_narrow_search : LDAP2JiraUserMap :=
  {| jira_url := jira_url self_example;
     jira_user_ := jira_user_ self_example;
     jira_password := jira_password self_example;
     jira_auth_token := jira_auth_token self_example;
     ldap_url := ldap_url self_example;
     ldap_base := ldap_base self_example;
     ldap_query_fields_username := ldap_query_fields_username self_example;
     ldap_fields_username := ldap_fields_username self_example;
     ldap_fields_mail := ldap_fields_mail self_example;
     ldap_fields_name := ldap_fields_name self_example;
     ldap_fields_jira_search := ["uid"; "mail"];
     email_domain := email_domain self_example;
     map_file := map_file self_example;
     map_ := map_ self_example |}.

(** ** Python string helpers: what the models compute *)

Lemma app_nil_string (s : string) : EmptyString +:+ s = s.
Proof. reflexivity. Qed.
Lemma app_cons_string a (p s : string) : String a p +:+ s = String a (p +:+ s).
Proof. reflexivity. Qed.
Lemma endswith_spec (s suffix : string) :
  endswith s suffix = true ↔ ∃ p, s = p +:+ suffix.
Proof.
  induction s as [|a s IH]; cbn [endswith].
  - destruct (String.eqb_spec EmptyString suffix) as [<-|Hne].
    + split; [by exists EmptyString | done].
    + split; [done |].
      intros [[|b p] Hp]; [by rewrite app_nil_string in Hp |].
      by rewrite app_cons_string in Hp.
  - destruct (String.eqb_spec (String a s) suffix) as [<-|Hne].
    + split; [by exists EmptyString | done].
    + rewrite IH. split.
      * intros [p ->]. by exists (String a p).
      * intros [[|b p] Hp]; [by rewrite app_nil_string in Hp |].
        rewrite app_cons_string in Hp.
        injection Hp as _ ->. by exists p.
Qed.

Lemma lstrip_at_prefix (d : string) : lstrip "@" ("@" +:+ d) = lstrip "@" d.
Proof. reflexivity. Qed.

Lemma lstrip_no_leading (c : ascii) (s r : string) :
  lstrip c s ≠ String c r.
Proof.
  induction s as [|a s IH]; simpl; [done |].
  destruct (Ascii.eqb_spec a c) as [->|Hne]; [done | congruence].
Qed.

(** ** The constructor *)

(** C5, as the code has it: construction succeeds exactly when user and
    password are both given (whatever the token), or neither is given and the
    token is; with nothing given, or with only one of user and password
    (whatever the token), it raises [ValueError] instead of building an
    instance, so no batch can start on it. Given means not [None] and not
    empty. *)
Theorem C5_credentials_check (kw : kwargs) :
  let user := truthy (kw_jira_user kw) in
  let password := truthy (kw_jira_password kw) in
  let token := truthy (kw_jira_auth_token kw) in
  __init__ kw =
    if user && password || negb user && negb password && token
    then inr (new_instance kw)
    else inl (ValueError
                (if user || password
                 then "JIRA user and password required for basic auth."
                 else "JIRA user/password or auth token required.")).
Proof.
  unfold __init__.
  destruct (truthy (kw_jira_user kw)), (truthy (kw_jira_password kw)),
    (truthy (kw_jira_auth_token kw)); reflexivity.
Qed.

(** C5, counterexample: a complete user and password pair together with a
    token is accepted, so a successful construction does not have exactly
    one of the two kinds of credentials; and a token together with a user
    but no password is refused, so a token alone does not make the
    construction succeed. *)
Lemma C5_both_kinds_accepted :
  ¬ (∀ kw self, __init__ kw = inr self →
       xorb (truthy (kw_jira_user kw) && truthy (kw_jira_password kw))
            (truthy (kw_jira_auth_token kw)) = true)
  ∧ ¬ (∀ kw, truthy (kw_jira_auth_token kw) = true →
         ∃ self, __init__ kw = inr self).
Proof.
  split.
  - intros H.
    specialize (H (with_credentials kw_example (Some "svc") (Some "secret")
                     (Some "t0k3n")) _ eq_refl).
    discriminate H.
  - intros H.
    destruct (H (with_credentials kw_example (Some "svc") None
                   (Some "t0k3n")) eq_refl) as [self Hself].
    discriminate Hself.
Qed.

(** ** The match scorer *)

Lemma _ldap_jira_match_returns self ldap_account jira_account :
  ∃ score, outcome (_ldap_jira_match self ldap_account jira_account)
           = inr score
           ∧ (score = NO_MATCH ∨ score = PARTIAL_MATCH ∨ score = MATCH).
Proof.
  unfold _ldap_jira_match.
  destruct (name jira_account), (emailAddress jira_account),
    (displayName jira_account); simpl;
    repeat case_match; simpl; eexists; (split; [reflexivity | auto]).
Qed.

(** A score other than [NO_MATCH] is given only past the domain gate. *)
Lemma _ldap_jira_match_past_gate self ldap_account jira_account :
  outcome (_ldap_jira_match self ldap_account jira_account) ≠ inr NO_MATCH →
  ∃ n email display,
    name jira_account = Some n ∧ emailAddress jira_account = Some email
    ∧ displayName jira_account = Some display
    ∧ endswith email ("@" +:+ email_domain self) = true.
Proof.
  unfold _ldap_jira_match.
  destruct (name jira_account) as [n|]; [| done].
  destruct (emailAddress jira_account) as [email|]; [| done].
  destruct (displayName jira_account) as [display|]; [| done].
  simpl. destruct (endswith email ("@" +:+ email_domain self)) eqn:Hgate;
    [| done].
  intros _. by exists n, email, display.
Qed.

(** C6: a candidate whose email does not end with '@' followed by the
    instance's email domain scores [NO_MATCH], whatever its name, display
    name and email are and whatever the directory record holds; so does a
    candidate without a name or without an email attribute. *)
Theorem C6_domain_gate self (ldap_account : gmap string string)
    (jira_account : jira_user) :
  name jira_account = None
  ∨ emailAddress jira_account = None
  ∨ (∃ email, emailAddress jira_account = Some email
              ∧ endswith email ("@" +:+ email_domain self) = false) →
  outcome (_ldap_jira_match self ldap_account jira_account) = inr NO_MATCH.
Proof.
  unfold _ldap_jira_match.
  intros [-> | [-> | (email & -> & Hgate)]]; [done | by case_match |].
  destruct (name jira_account); [| done].
  destruct (displayName jira_account); [| done].
  simpl. by rewrite Hgate.
Qed.

(** The record and the candidate agree on user name, display name and
    email; only the domain differs from the configured one. *)
Lemma C6_domain_gate_witness :
  outcome (_ldap_jira_match self_example
             {[ "uid" := "bob"; "cn" := "Bob Brown";
                "mail" := "bob@other.org" ]}
             (account "bob" "bob@other.org" "Bob Brown")) = inr NO_MATCH.
Proof.
  apply C6_domain_gate. right; right.
  exists "bob@other.org". split; reflexivity.
Defined.

(** C10: the constructor stores the domain with every leading '@' removed;
    the scorer lets a candidate past its gate only when the email ends with
    '@' followed by that stored domain; and the constructor called with a
    domain and called with '@' before that domain gives the same result, so
    the two instances score every record and candidate alike. *)
Theorem C10_domain_normalised (kw : kwargs) (d : string) :
  __init__ (with_email_domain kw ("@" +:+ d))
    = __init__ (with_email_domain kw d)
  ∧ ∀ self1 self2,
      __init__ (with_email_domain kw d) = inr self1 →
      __init__ (with_email_domain kw ("@" +:+ d)) = inr self2 →
      email_domain self1 = lstrip "@" d
      ∧ (∀ r, email_domain self1 ≠ String "@" r)
      ∧ (∀ ldap_account jira_account,
           _ldap_jira_match self1 ldap_account jira_account
           = _ldap_jira_match self2 ldap_account jira_account)
      ∧ (∀ ldap_account jira_account,
           outcome (_ldap_jira_match self1 ldap_account jira_account)
             ≠ inr NO_MATCH →
           ∃ email, emailAddress jira_account = Some email
                    ∧ endswith email ("@" +:+ lstrip "@" d) = true).
Proof.
  assert (Heq : __init__ (with_email_domain kw ("@" +:+ d))
                = __init__ (with_email_domain kw d)).
  { unfold __init__, new_instance; simpl. reflexivity. }
  split; [exact Heq |].
  intros self1 self2 H1 H2.
  assert (self2 = self1) as -> by congruence.
  assert (Hdom : email_domain self1 = lstrip "@" d).
  { revert H1. unfold __init__. repeat case_match; try done;
      intros [= <-]; reflexivity. }
  split; [done |]. split; [rewrite Hdom; apply lstrip_no_leading |].
  split; [done |].
  intros ldap_account jira_account Hscore.
  destruct (_ldap_jira_match_past_gate _ _ _ Hscore)
    as (n & email & display & _ & Hmail & _ & Hgate).
  exists email. by rewrite <- Hdom.
Qed.

(** ** Runs: outcome and trace of a sequence *)

Lemma outcome_bind {A B} (m : M A) (k : A → M B) :
  outcome (bind m k)
  = match outcome m with inl e => inl e | inr a => outcome (k a) end.
Proof. by destruct m as [t [e|a]]. Qed.

Lemma trace_bind {A B} (m : M A) (k : A → M B) :
  trace (bind m k)
  = trace m ++ match outcome m with inl _ => [] | inr a => trace (k a) end.
Proof. destruct m as [t [e|a]]; simpl; [by rewrite app_nil_r | done]. Qed.

(** ** The search values (lines 299-310) *)

Lemma filter_first_seen (P : string → Prop) `{!∀ x, Decision (P x)}
    (l : list string) :
  first_seen (filter P l) = filter P (first_seen l).
Proof.
  induction l as [|x l IH]; [done |].
  cbn [first_seen]. rewrite !filter_cons. destruct (decide (P x)) as [HP|HP].
  - cbn [first_seen]. rewrite IH. f_equal.
    rewrite !list_filter_filter. apply list_filter_iff. intros y; simpl. tauto.
  - rewrite IH, list_filter_filter. apply list_filter_iff.
    intros y; simpl. split; [| tauto]. intros Hy. split; [done | congruence].
Qed.

Lemma first_seen_elem (l : list string) x : x ∈ first_seen l ↔ x ∈ l.
Proof.
  induction l as [|y l IH]; [done |]. cbn [first_seen].
  rewrite !elem_of_cons, list_elem_of_filter, IH.
  destruct (decide (x = y)) as [->|]; tauto.
Qed.

Lemma first_seen_NoDup (l : list string) : NoDup (first_seen l).
Proof.
  induction l as [|y l IH]; cbn [first_seen]; [constructor |].
  constructor; [| by apply NoDup_filter].
  rewrite list_elem_of_filter. tauto.
Qed.

Lemma first_seen_sublist (l : list string) : first_seen l `sublist_of` l.
Proof.
  induction l as [|y l IH]; cbn [first_seen]; [done |].
  constructor. etrans; [apply sublist_filter | done].
Qed.

Lemma omap_cons_eq {A B} (f : A → option B) x l :
  omap f (x :: l)
  = match f x with Some y => y :: omap f l | None => omap f l end.
Proof. reflexivity. Qed.

Lemma collect_jira_queries_outcome ldap_account fields jira_queries :
  outcome (collect_jira_queries ldap_account fields jira_queries)
  = inr (jira_queries
         ++ first_seen (filter (λ v, v ∉ jira_queries)
                          (omap (field_value ldap_account) fields))).
Proof.
  revert jira_queries.
  induction fields as [|field fields IH]; intros jira_queries.
  - simpl. by rewrite app_nil_r.
  - rewrite omap_cons_eq. cbn [collect_jira_queries]. unfold field_value at 1.
    destruct (ldap_account !! field) as [[|a v]|] eqn:Hf.
    + rewrite outcome_bind. simpl. apply IH.
    + rewrite filter_cons. case_bool_decide as Hin.
      * rewrite IH. by destruct (decide _).
      * rewrite IH. destruct (decide _) as [_|]; [| done].
        cbn [first_seen]. rewrite <- app_assoc. simpl. do 3 f_equal.
        rewrite <- filter_first_seen, list_filter_filter.
        f_equal. apply list_filter_iff. intros y; simpl.
        rewrite not_elem_of_app, list_elem_of_singleton. tauto.
    + rewrite outcome_bind. simpl. apply IH.
Qed.

Lemma filter_not_in_nil (l : list string) : filter (λ v, v ∉ []) l = l.
Proof.
  induction l as [|v l IH]; [done |].
  rewrite filter_cons, IH. destruct (decide _) as [|Hv]; [done |].
  destruct Hv. apply not_elem_of_nil.
Qed.

(** The loop of the code builds the list the specification describes. *)
Lemma collect_jira_queries_spec ldap_account fields :
  outcome (collect_jira_queries ldap_account fields [])
  = inr (seed_sequence_spec ldap_account fields).
Proof.
  rewrite collect_jira_queries_outcome. cbn [app].
  by rewrite filter_not_in_nil.
Qed.

(** C8: for one directory record, the list of search values the code builds
    is the list the specification describes: the configured search fields in
    their order, a field that is absent or has an empty value skipped, a
    value already collected skipped. It has no duplicates, holds exactly the
    non-empty values of the configured fields present in the record, and
    keeps them in the order of the fields. *)
Theorem C8_seed_sequence (self : LDAP2JiraUserMap)
    (ldap_account : gmap string string) :
  let fields := ldap_fields_jira_search self in
  let seeds := seed_sequence_spec ldap_account fields in
  outcome (collect_jira_queries ldap_account fields []) = inr seeds
  ∧ NoDup seeds
  ∧ (∀ v, v ∈ seeds ↔
          v ≠ EmptyString
          ∧ ∃ field, field ∈ fields ∧ ldap_account !! field = Some v)
  ∧ seeds `sublist_of` omap (field_value ldap_account) fields.
Proof.
  intros fields seeds. split; [| split; [| split]].
  - apply collect_jira_queries_spec.
  - apply first_seen_NoDup.
  - intros v. unfold seeds, seed_sequence_spec.
    rewrite first_seen_elem, list_elem_of_omap. unfold field_value. split.
    + intros (field & Hin & Hv).
      destruct (ldap_account !! field) as [[|a w]|] eqn:Hf; try done.
      injection Hv as <-. split; [done | eauto].
    + intros (Hne & field & Hin & Hf). exists field. split; [done |].
      rewrite Hf. by destruct v.
  - apply first_seen_sublist.
Qed.

(** ** The two loops of [_process_username] (lines 316-341)

    What the locals hold when a loop returns, for a loop entered with no
    account recorded in the user dict. *)

Section loops.
Context (env : adapters) (self : LDAP2JiraUserMap)
        (ldap_account : gmap string string).

Lemma candidates_loop_inv single accounts st st' :
  ud_jira_account (l_user_dict st) = None →
  outcome (candidates_loop self ldap_account single accounts st) = inr st' →
  match ud_jira_account (l_user_dict st') with
  | None =>
    l_user_dict st' = l_user_dict st
    ∧ jira_account_usernames st'
      = jira_account_usernames st ∪ list_to_set (omap name accounts)
  | Some m =>
    l_user_dict st'
      = with_jira_account (with_status (l_user_dict st) "found") m
    ∧ m ∈ jira_account_usernames st'
    ∧ ∃ acc, acc ∈ accounts ∧ name acc = Some m
           ∧ outcome (_ldap_jira_match self ldap_account acc) = inr MATCH
  end
  ∧ (∀ p, p ∈ partial_single_matches st' →
       p ∈ partial_single_matches st
       ∨ single = true
         ∧ ∃ acc, acc ∈ accounts ∧ name acc = Some p
                  ∧ outcome (_ldap_jira_match self ldap_account acc)
                  = inr PARTIAL_MATCH)
  ∧ (single = false →
     partial_single_matches st' = partial_single_matches st).
Proof.
  revert st. induction accounts as [|acc accounts IH]; intros st Hnone.
  - simpl. intros [= <-]. rewrite Hnone.
    split; [split; [done | set_solver] |]. split; [auto | done].
  - cbn [candidates_loop].
    destruct (name acc) as [n|] eqn:Hname; [| done].
    rewrite omap_cons_eq, Hname.
    destruct (bool_decide (n ∈ jira_account_usernames st) && negb single)
      eqn:Hskip.
    + intros Hrun. destruct (IH st Hnone Hrun) as (Hud & Hpart & Hmulti).
      apply andb_true_iff in Hskip as [Hseen%bool_decide_eq_true _].
      split; [| split; [| done]].
      * destruct (ud_jira_account (l_user_dict st')) as [m|].
        -- destruct Hud as (? & ? & a & ? & ? & ?).
           split; [done |]. split; [done |]. exists a.
           by rewrite elem_of_cons; auto.
        -- destruct Hud as [? ->]. split; [done | set_solver].
      * intros p Hp. destruct (Hpart p Hp) as [|(? & a & ? & ? & ?)];
          [by left |]. right. split; [done |]. exists a.
        by rewrite elem_of_cons; auto.
    + rewrite outcome_bind.
      destruct (_ldap_jira_match_returns self ldap_account acc)
        as (z & Hz & Hcases). rewrite Hz.
      destruct (z =? MATCH)%Z eqn:Hm.
      * apply Z.eqb_eq in Hm as ->. simpl. intros [= <-]. simpl.
        split; [| split; [by left | done]].
        split; [done |]. split; [set_solver |].
        exists acc. rewrite elem_of_cons; auto.
      * intros Hrun.
        match type of Hrun with
        | outcome (candidates_loop _ _ _ _ ?s) = _ =>
          destruct (IH s Hnone Hrun) as (Hud & Hpart & Hmulti)
        end.
        cbn [jira_account_usernames partial_single_matches l_user_dict]
          in *.
        split; [| split].
        -- destruct (ud_jira_account (l_user_dict st')) as [m|].
           ++ destruct Hud as (? & ? & a & ? & ? & ?).
              split; [done |]. split; [done |]. exists a.
              by rewrite elem_of_cons; auto.
           ++ destruct Hud as [? ->]. split; [done | set_solver].
        -- intros p Hp. destruct (Hpart p Hp) as [Hin|(? & a & ? & ? & ?)].
           ++ destruct ((z =? PARTIAL_MATCH)%Z && single) eqn:Hps;
                [| by left].
              apply andb_true_iff in Hps as [Hz'%Z.eqb_eq ->]. subst z.
              case_bool_decide; [by left |].
              apply elem_of_app in Hin as [|Hin%list_elem_of_singleton];
                [by left |]. subst p.
              right. split; [done |]. exists acc.
              rewrite elem_of_cons; auto.
           ++ right. split; [done |]. exists a.
              by rewrite elem_of_cons; auto.
        -- intros ->. rewrite (Hmulti eq_refl).
           by rewrite andb_false_r.
Qed.

Lemma seed_loop_inv jira_queries st st' :
  ud_jira_account (l_user_dict st) = None →
  outcome (seed_loop env self ldap_account jira_queries st) = inr st' →
  match ud_jira_account (l_user_dict st') with
  | None =>
    l_user_dict st' = l_user_dict st
    ∧ jira_account_usernames st'
      = jira_account_usernames st ∪ list_to_set (observed env jira_queries)
  | Some m =>
    l_user_dict st'
      = with_jira_account (with_status (l_user_dict st) "found") m
    ∧ m ∈ jira_account_usernames st'
    ∧ ∃ query acc, query ∈ jira_queries
                   ∧ acc ∈ JIRA_search_users env query 10
                   ∧ name acc = Some m
                 ∧ outcome (_ldap_jira_match self ldap_account acc)
                   = inr MATCH
  end
  ∧ (∀ p, p ∈ partial_single_matches st' →
       p ∈ partial_single_matches st
       ∨ ∃ query acc, query ∈ jira_queries
                      ∧ JIRA_search_users env query 10 = [acc]
                      ∧ name acc = Some p
                      ∧ outcome (_ldap_jira_match self ldap_account acc)
                  = inr PARTIAL_MATCH).
Proof.
  revert st. induction jira_queries as [|query rest IH]; intros st Hnone.
  - simpl. intros [= <-]. rewrite Hnone. unfold observed. simpl.
    split; [split; [done | set_solver] | auto].
  - cbn [seed_loop]. rewrite outcome_bind. simpl. rewrite outcome_bind.
    destruct (outcome (candidates_loop _ _ _ _ st)) as [e|st1] eqn:Hinner;
      [done |].
    destruct (candidates_loop_inv _ _ _ _ Hnone Hinner)
      as (Hud1 & Hpart1 & _).
    assert (Hsingle : ∀ acc,
      (length (JIRA_search_users env query 10) =? 1)%nat = true →
      acc ∈ JIRA_search_users env query 10 →
      JIRA_search_users env query 10 = [acc]).
    { intros acc Hlen%Nat.eqb_eq Hin.
      destruct (JIRA_search_users env query 10) as [|a [|? ?]];
        try done. by apply list_elem_of_singleton in Hin as ->. }
    case_bool_decide as Hfound.
    + intros [= <-]. destruct Hfound as [m Hm]. rewrite Hm in *.
      destruct Hud1 as (? & ? & acc & ? & ? & ?).
      split.
      * split; [done |]. split; [done |]. exists query, acc.
        rewrite elem_of_cons. auto.
      * intros p Hp. destruct (Hpart1 p Hp) as [|(Hs & acc' & ? & ? & ?)];
          [by left |]. right. exists query, acc'.
        rewrite elem_of_cons. split; [auto |]. split; [| done].
        by apply Hsingle.
    + intros Hrun.
      assert (Hnone1 : ud_jira_account (l_user_dict st1) = None).
      { destruct (ud_jira_account (l_user_dict st1)) eqn:E; [| done].
        destruct Hfound. by eexists. }
      rewrite Hnone1 in Hud1. destruct Hud1 as [Hud1 Hseen1].
      destruct (IH st1 Hnone1 Hrun) as (Hud & Hpart).
      split.
      * destruct (ud_jira_account (l_user_dict st')) as [m|].
        -- destruct Hud as (? & ? & q & acc & ? & ? & ? & ?).
           split; [congruence |]. split; [done |]. exists q, acc.
           rewrite elem_of_cons. auto.
        -- destruct Hud as [? ->]. split; [congruence |].
           rewrite Hseen1. unfold observed. simpl.
           rewrite list_to_set_app_L. set_solver.
      * intros p Hp. destruct (Hpart p Hp) as [Hin|(q & acc & ? & ? & ?)].
        -- destruct (Hpart1 p Hin) as [|(Hs & acc' & ? & ? & ?)];
             [by left |]. right. exists query, acc'.
           rewrite elem_of_cons. split; [auto |]. split; [| done].
           by apply Hsingle.
        -- right. exists q, acc. rewrite elem_of_cons. auto.
Qed.
End loops.

(** ** The worker [_process_username] by parts *)

Lemma candidates_loop_multi self ldap_account accounts st st' :
  outcome (candidates_loop self ldap_account false accounts st) = inr st' →
  partial_single_matches st' = partial_single_matches st.
Proof.
  revert st. induction accounts as [|acc accounts IH]; intros st.
  - by intros [= <-].
  - cbn [candidates_loop]. destruct (name acc) as [n|]; [| done].
    case_match; [apply IH |]. rewrite outcome_bind.
    destruct (_ldap_jira_match_returns self ldap_account acc)
      as (z & -> & _).
    destruct (z =? MATCH)%Z; [by intros [= <-] |].
    rewrite andb_false_r. intros Hrun. by rewrite (IH _ Hrun).
Qed.

Lemma verdict_outcome username st :
  outcome (verdict username st)
  = inr (if bool_decide (jira_account_usernames st = ∅)
         then with_status (l_user_dict st) "missing"
         else match partial_single_matches st with
              | [p] => with_jira_account
                         (with_status (l_user_dict st) "found") p
              | _ => match ud_jira_account (l_user_dict st) with
                     | Some _ => l_user_dict st
                     | None =>
                       with_status
                         (with_jira_results (l_user_dict st)
                            (jira_account_usernames st)) "ambiguous"
                     end
              end).
Proof.
  unfold verdict. case_bool_decide; [done |].
  destruct (partial_single_matches st) as [|p [|q l]]; simpl;
    by destruct (ud_jira_account (l_user_dict st)).
Qed.

(** A run that passes the empty-name guard, misses the map and gets one
    record from the directory is the two loops followed by the verdict. *)
Lemma _process_username_single env self username ldap_account :
  username ≠ EmptyString →
  map_ self !! username = None →
  outcome (ldap_query env self username) = inr [ldap_account] →
  outcome (_process_username env self username)
  = match outcome (seed_loop env self ldap_account
                     (seed_sequence_spec ldap_account
                        (ldap_fields_jira_search self))
                     (new_locals (new_user_dict username))) with
    | inl e => inl e
    | inr st => outcome (verdict username st)
    end.
Proof.
  intros Hne Hmap Hldap. unfold _process_username.
  destruct username as [|a u]; [done |]. cbn [truthy negb].
  rewrite outcome_bind. cbn [outcome log emit snd].
  rewrite Hmap, outcome_bind, Hldap, outcome_bind.
  rewrite collect_jira_queries_spec.
  by rewrite outcome_bind.
Qed.

Lemma trace_process_empty env self :
  _process_username env self EmptyString
  = ([], inr (new_user_dict EmptyString)).
Proof. reflexivity. Qed.

Lemma _process_username_in_map env self username account :
  username ≠ EmptyString →
  map_ self !! username = Some account →
  _process_username env self username
  = ([Log INFO (MsgProcess username);
      Log INFO (MsgJiraAccount "found" account (ExtraText "File Map"))],
     inr {| ud_username := Some username; ud_status := Some "found";
            ud_jira_account := Some account; ud_jira_results := None |}).
Proof.
  intros Hne Hmap. unfold _process_username.
  destruct username as [|a u]; [done |]. cbn [truthy negb].
  by rewrite Hmap.
Qed.

Lemma ldap_query_eq env self username :
  ldap_query env self username
  = ([LdapQuery username (ldap_query_fields_username self)
        (list_to_set (ldap_fields_username self ++ ldap_fields_mail self
                      ++ ldap_fields_jira_search self))],
     inr (LDAPLookup_query env username (ldap_query_fields_username self)
            (list_to_set (ldap_fields_username self ++ ldap_fields_mail self
                          ++ ldap_fields_jira_search self)))).
Proof. reflexivity. Qed.

(** ** The override map and the directory query (lines 269-295) *)

(** C3, as the code has it: for a user name that is not empty and is a key
    of the map, the worker returns found with the mapped account; it writes
    two log records and calls neither adapter. *)
Theorem C3_override_found env self (username account : string) :
  username ≠ EmptyString →
  map_ self !! username = Some account →
  outcome (_process_username env self username)
  = inr {| ud_username := Some username; ud_status := Some "found";
           ud_jira_account := Some account; ud_jira_results := None |}
  ∧ trace (_process_username env self username)
    = [Log INFO (MsgProcess username);
       Log INFO (MsgJiraAccount "found" account (ExtraText "File Map"))]
  ∧ ∀ ev, ev ∈ trace (_process_username env self username) →
          is_adapter_call ev = false.
Proof.
  intros Hne Hmap. rewrite (_process_username_in_map _ _ _ _ Hne Hmap).
  split; [done |]. split; [done |]. simpl. intros ev Hev.
  repeat (apply elem_of_cons in Hev as [->|Hev]; [done |]).
  by apply elem_of_nil in Hev.
Qed.

Lemma C3_override_found_witness :
  outcome (_process_username env_single_partial
             (with_map self_example {[ "alice" := "alice.j" ]}) "alice")
  = inr {| ud_username := Some "alice"; ud_status := Some "found";
           ud_jira_account := Some "alice.j"; ud_jira_results := None |}.
Proof.
  apply (C3_override_found env_single_partial
           (with_map self_example {[ "alice" := "alice.j" ]})
           "alice" "alice.j"); [done | reflexivity].
Defined.

(** C3, counterexample: the empty user name as a key of the map. The worker
    returns at its first guard, before it looks at the map, with no status
    and no account. *)
Lemma C3_empty_name_in_map :
  ¬ (∀ env self username account,
       map_ self !! username = Some account →
       ∃ ud, outcome (_process_username env self username) = inr ud
             ∧ ud_status ud = Some "found"
             ∧ ud_jira_account ud = Some account).
Proof.
  intros H.
  destruct (H env_single_partial
              (with_map self_example {[ EmptyString := "ghost" ]})
              EmptyString "ghost" (lookup_singleton_eq _ _))
    as (ud & Hrun & Hstatus & _).
  rewrite trace_process_empty in Hrun. injection Hrun as <-. done.
Qed.

(** C4: for a user name that is not in the map, when the run queries the
    directory and the directory does not return exactly one record, the
    worker returns normally with a status decided by the count alone,
    'not_in_ldap' for no record and 'missing' for several, with no account
    and no candidates; it makes no account search, and for several records
    it logs an error. *)
Theorem C4_directory_count_decides env self (username : string)
    (ldap_results : list (gmap string string)) :
  map_ self !! username = None →
  (∃ query_fields return_fields,
     LdapQuery username query_fields return_fields
       ∈ trace (_process_username env self username)) →
  outcome (ldap_query env self username) = inr ldap_results →
  length ldap_results ≠ 1 →
  outcome (_process_username env self username)
  = inr {| ud_username := Some username;
           ud_status := Some (match ldap_results with
                              | [] => "not_in_ldap"
                              | _ => "missing"
                              end);
           ud_jira_account := None; ud_jira_results := None |}
  ∧ (∀ ev, ev ∈ trace (_process_username env self username) →
           is_jira_search ev = false)
  ∧ (ldap_results ≠ [] →
     last (trace (_process_username env self username))
     = Some (Log ERROR (MsgMultipleLdap username))).
Proof.
  intros Hmap (qf & rf & Hq) Hldap Hlen.
  destruct username as [|a u].
  { rewrite trace_process_empty in Hq. by apply elem_of_nil in Hq. }
  clear Hq. revert Hldap. rewrite ldap_query_eq. intros [= Hldap].
  unfold _process_username. cbn [truthy negb]. rewrite Hmap.
  rewrite ldap_query_eq, Hldap.
  destruct ldap_results as [|r1 [|r2 rs]]; [| done |].
  - split; [done |]. split; [| done]. simpl. intros ev Hev.
    repeat (apply elem_of_cons in Hev as [->|Hev]; [done |]).
    by apply elem_of_nil in Hev.
  - split; [done |]. split; [| done]. simpl. intros ev Hev.
    repeat (apply elem_of_cons in Hev as [->|Hev]; [done |]).
    by apply elem_of_nil in Hev.
Qed.

Lemma C4_directory_count_decides_witness :
  outcome (_process_username env_twice self_example "bob")
  = inr {| ud_username := Some "bob"; ud_status := Some "missing";
           ud_jira_account := None; ud_jira_results := None |}.
Proof.
  apply (C4_directory_count_decides env_twice self_example "bob"
           [bob_record; bob_record]).
  - reflexivity.
  - eexists _, _. vm_compute. apply list_elem_of_further, list_elem_of_here.
  - reflexivity.
  - simpl. lia.
Defined.

(** ** The verdict (lines 343-362) *)

(** X20: when the worker returns the ambiguous status, the directory had
    exactly one record for the name, every search value of that record was
    searched, and the candidates in the result are exactly the account
    names those searches returned, held in a set; the result has no
    account. *)
Theorem ambiguous_carries_seen_set env self (username : string)
    (ud : user_dict) :
  outcome (_process_username env self username) = inr ud →
  ud_status ud = Some "ambiguous" →
  ∃ ldap_account,
    outcome (ldap_query env self username) = inr [ldap_account]
    ∧ ud_jira_results ud
      = Some (list_to_set
                (observed env
                   (seed_sequence_spec ldap_account
                      (ldap_fields_jira_search self))))
    ∧ ud_jira_account ud = None
    ∧ ud_username ud = Some username.
Proof.
  intros Hrun Hstatus.
  destruct (decide (username = EmptyString)) as [->|Hne].
  { rewrite trace_process_empty in Hrun. injection Hrun as <-. done. }
  destruct (map_ self !! username) as [account|] eqn:Hmap.
  { rewrite (_process_username_in_map _ _ _ _ Hne Hmap) in Hrun.
    injection Hrun as <-. done. }
  destruct (outcome (ldap_query env self username)) as [e|rs] eqn:Hldap;
    [done |].
  destruct rs as [|ldap_account [|r2 rs]].
  - revert Hrun Hldap. unfold _process_username.
    destruct username; [done |]. cbn [truthy negb]. rewrite Hmap.
    rewrite ldap_query_eq. intros Hrun [= Hldap]. rewrite Hldap in Hrun.
    injection Hrun as <-. done.
  - exists ldap_account. split; [done |].
    rewrite (_process_username_single _ _ _ _ Hne Hmap Hldap) in Hrun.
    destruct (outcome (seed_loop _ _ _ _ _)) as [e|st] eqn:Hloop; [done |].
    apply seed_loop_inv in Hloop as [Hud _]; [| done].
    rewrite verdict_outcome in Hrun. injection Hrun as <-.
    cbn [new_locals l_user_dict jira_account_usernames] in Hud.
    case_bool_decide; [done |].
    destruct (partial_single_matches st) as [|p [|q l]];
      destruct (ud_jira_account (l_user_dict st)) as [m|];
      destruct Hud as [Hud Hseen]; rewrite Hud in *; try done.
    + simpl. rewrite Hseen. by rewrite (left_id_L ∅ (∪)).
    + simpl. rewrite Hseen. by rewrite (left_id_L ∅ (∪)).
  - revert Hrun Hldap. unfold _process_username.
    destruct username; [done |]. cbn [truthy negb]. rewrite Hmap.
    rewrite ldap_query_eq. intros Hrun [= Hldap]. rewrite Hldap in Hrun.
    injection Hrun as <-. done.
Qed.

Lemma ambiguous_carries_seen_set_witness :
  ∃ ldap_account,
    outcome (ldap_query (env_two_partial false) self_example "bob")
    = inr [ldap_account]
    ∧ Some ({[ "bbrown" ]} ∪ {[ "brownb" ]} : gset string)
      = Some (list_to_set
                (observed (env_two_partial false)
                   (seed_sequence_spec ldap_account
                      (ldap_fields_jira_search self_example))))
    ∧ (None : option string) = None
    ∧ Some "bob" = Some "bob".
Proof.
  apply (ambiguous_carries_seen_set (env_two_partial false) self_example
           "bob"
           {| ud_username := Some "bob"; ud_status := Some "ambiguous";
              ud_jira_account := None;
              ud_jira_results := Some ({[ "bbrown" ]} ∪ {[ "brownb" ]}) |}).
  - vm_compute. reflexivity.
  - reflexivity.
Defined.

(** C2, on the code: the docstring of [find_jira_accounts] describes
    'jira-results' as a list, but the worker stores the set of seen account
    names in it. Two searches that return the same two accounts in opposite
    orders end in the same ambiguous result, so no reading of the result
    gives the candidates in the order they were first observed. *)
Lemma C2_first_seen_order_not_carried :
  ¬ ∃ listing : user_dict → list string,
      ∀ swap ud,
        outcome (_process_username (env_two_partial swap) self_example "bob")
        = inr ud →
        ud_status ud = Some "ambiguous" →
        listing ud
        = first_seen (observed (env_two_partial swap)
                        (seed_sequence_spec bob_record
                           (ldap_fields_jira_search self_example))).
Proof.
  intros [listing H].
  pose (ud := {| ud_username := Some "bob"; ud_status := Some "ambiguous";
                 ud_jira_account := None;
                 ud_jira_results :=
                   Some ({[ "bbrown" ]} ∪ {[ "brownb" ]} : gset string) |}).
  assert (H1 : outcome (_process_username (env_two_partial false)
                          self_example "bob") = inr ud)
    by (vm_compute; reflexivity).
  assert (H2 : outcome (_process_username (env_two_partial true)
                          self_example "bob") = inr ud)
    by (vm_compute; reflexivity).
  pose proof (H false ud H1 eq_refl) as L1.
  pose proof (H true ud H2 eq_refl) as L2.
  rewrite L1 in L2. vm_compute in L2. discriminate L2.
Qed.

(** C7: in a run that reaches the loops (the name is not empty and not in
    the map, the directory has one record), when the loops end with no match
    recorded, at least one account seen and exactly one account in the list
    of single partial matches, the worker returns found with that account.
    Every account in that list was the only result of one of the searches
    and scored a partial match there; the loop over the results of a search
    with several results leaves the list as it was. *)
Theorem C7_single_partial_found env self (username : string)
    (ldap_account : gmap string string) (jira_queries : list string)
    (st : locals) (p : string) :
  username ≠ EmptyString →
  map_ self !! username = None →
  outcome (ldap_query env self username) = inr [ldap_account] →
  outcome (collect_jira_queries ldap_account (ldap_fields_jira_search self)
             []) = inr jira_queries →
  outcome (seed_loop env self ldap_account jira_queries
             (new_locals (new_user_dict username))) = inr st →
  ud_jira_account (l_user_dict st) = None →
  jira_account_usernames st ≠ ∅ →
  partial_single_matches st = [p] →
  outcome (_process_username env self username)
  = inr {| ud_username := Some username; ud_status := Some "found";
           ud_jira_account := Some p; ud_jira_results := None |}
  ∧ (∀ p', p' ∈ partial_single_matches st →
       ∃ query acc,
         query ∈ jira_queries
         ∧ JIRA_search_users env query 10 = [acc]
         ∧ name acc = Some p'
         ∧ outcome (_ldap_jira_match self ldap_account acc)
           = inr PARTIAL_MATCH)
  ∧ (∀ accounts st0 st1,
       outcome (candidates_loop self ldap_account false accounts st0)
       = inr st1 →
       partial_single_matches st1 = partial_single_matches st0).
Proof.
  intros Hne Hmap Hldap Hq Hloop Hnone Hseen Hp.
  rewrite collect_jira_queries_spec in Hq. injection Hq as <-.
  split; [| split].
  - rewrite (_process_username_single _ _ _ _ Hne Hmap Hldap), Hloop.
    rewrite verdict_outcome, Hp. case_bool_decide; [done |].
    apply seed_loop_inv in Hloop as [Hud _]; [| done].
    rewrite Hnone in Hud. destruct Hud as [-> _]. done.
  - intros p' Hp'. apply seed_loop_inv in Hloop as [_ Hpart]; [| done].
    destruct (Hpart p' Hp') as [Hin|]; [| done].
    by apply elem_of_nil in Hin.
  - intros accounts st0 st1. apply candidates_loop_multi.
Qed.

Lemma C7_single_partial_found_witness :
  outcome (_process_username env_single_partial self_example "bob")
  = inr {| ud_username := Some "bob"; ud_status := Some "found";
           ud_jira_account := Some "bbrown"; ud_jira_results := None |}.
Proof.
  refine (proj1 (C7_single_partial_found env_single_partial self_example
                   "bob" bob_record bob_queries
                   {| jira_account_usernames := {[ "bbrown" ]};
                      partial_single_matches := ["bbrown"];
                      l_user_dict := new_user_dict "bob" |}
                   "bbrown" _ _ _ _ _ _ _ _)).
  - discriminate.
  - reflexivity.
  - vm_compute. reflexivity.
  - vm_compute. reflexivity.
  - vm_compute. reflexivity.
  - reflexivity.
  - vm_compute. discriminate.
  - reflexivity.
Defined.

(** X19: When the loops end with a match recorded, the worker returns found;
    the account is the recorded match unless the list of single partial
    matches has exactly one entry, which then replaces it. *)
Lemma _process_username_match_recorded env self username ldap_account st m :
  username ≠ EmptyString →
  map_ self !! username = None →
  outcome (ldap_query env self username) = inr [ldap_account] →
  outcome (seed_loop env self ldap_account
             (seed_sequence_spec ldap_account (ldap_fields_jira_search self))
             (new_locals (new_user_dict username))) = inr st →
  ud_jira_account (l_user_dict st) = Some m →
  outcome (_process_username env self username)
  = inr {| ud_username := Some username; ud_status := Some "found";
           ud_jira_account := Some (match partial_single_matches st with
                                    | [p] => p
                                    | _ => m
                                    end);
           ud_jira_results := None |}.
Proof.
  intros Hne Hmap Hldap Hloop Hm.
  rewrite (_process_username_single _ _ _ _ Hne Hmap Hldap), Hloop.
  rewrite verdict_outcome.
  apply seed_loop_inv in Hloop as [Hud _]; [| done].
  rewrite Hm in Hud. destruct Hud as (Hud & Hseen & _).
  rewrite bool_decide_eq_false_2 by set_solver.
  rewrite Hud. by destruct (partial_single_matches st) as [|p [|q l]].
Qed.

(** C1, on the code: bob's record has three search values. The search for
    the first returns one account, bbrown, which scores a partial match. The
    search for the second returns two accounts; the first, bob, scores a
    match, is logged as found, and the loops stop: the second account is not
    scored and the third value is not searched. The verdict then finds one
    single partial match and writes bbrown over bob. *)
Theorem C1_match_replaced_by_single_partial :
  outcome (_ldap_jira_match self_example bob_record
             (account "bob" "bob@corp.com" "Robert Brown")) = inr MATCH
  ∧ outcome (_ldap_jira_match self_example bob_record
               (account "bbrown" "bbrown@corp.com" "Bob Brown"))
    = inr PARTIAL_MATCH
  ∧ _process_username env_partial_then_match self_example "bob"
    = ([Log INFO (MsgProcess "bob");
        LdapQuery "bob" ["uid"]
          (list_to_set (["uid"] ++ ["mail"] ++ ["cn"; "uid"; "mail"]));
        Log INFO (MsgJiraSearch "Bob Brown");
        JiraSearchUsers "Bob Brown" 10;
        Log DEBUG (MsgTrying "Bob Brown" "bbrown" "bbrown@corp.com");
        Log DEBUG MsgPartialMatch;
        Log INFO (MsgJiraSearch "bob");
        JiraSearchUsers "bob" 10;
        Log DEBUG (MsgTrying "Robert Brown" "bob" "bob@corp.com");
        Log DEBUG MsgMatch;
        Log INFO (MsgJiraAccount "found" "bob" (ExtraText EmptyString));
        Log INFO (MsgJiraAccount "found" "bbrown"
                    (ExtraText "Single Partial"))],
       inr {| ud_username := Some "bob"; ud_status := Some "found";
              ud_jira_account := Some "bbrown";
              ud_jira_results := None |}).
Proof. split; [| split]; vm_compute; reflexivity. Qed.

(** ** The batch entry point (lines 404-421) *)

Lemma find_jira_accounts_map fs env self usernames :
  map_ (fst (find_jira_accounts fs env self usernames))
  = match outcome (load_map fs (map_file self)) with
    | inl _ => map_ self
    | inr loaded => loaded ∪ map_ self
    end
  ∧ map_file (fst (find_jira_accounts fs env self usernames))
    = map_file self.
Proof.
  unfold find_jira_accounts.
  by destruct (outcome (load_map fs (map_file self))).
Qed.

Lemma run_batches_map_file self calls :
  map_file (run_batches self calls) = map_file self.
Proof.
  revert self. induction calls as [|[[fs env] us] calls IH]; intros self;
    [done |].
  cbn [run_batches]. rewrite IH. apply find_jira_accounts_map.
Qed.




(** ** The result of a batch (lines 408-419) *)

(** The user dict a worker returns still holds the name it was given. *)
Lemma _process_username_keeps_name env self username ud :
  outcome (_process_username env self username) = inr ud →
  ud_username ud = Some username.
Proof.
  intros Hrun.
  destruct (decide (username = EmptyString)) as [->|Hne].
  { rewrite trace_process_empty in Hrun. by injection Hrun as <-. }
  destruct (map_ self !! username) as [account|] eqn:Hmap.
  { rewrite (_process_username_in_map _ _ _ _ Hne Hmap) in Hrun.
    by injection Hrun as <-. }
  destruct (outcome (ldap_query env self username)) as [e|rs] eqn:Hldap;
    [done |].
  destruct rs as [|ldap_account [|r2 rs]].
  - revert Hrun Hldap. unfold _process_username.
    destruct username; [done |]. cbn [truthy negb]. rewrite Hmap.
    rewrite ldap_query_eq. intros Hrun [= Hldap]. rewrite Hldap in Hrun.
    by injection Hrun as <-.
  - rewrite (_process_username_single _ _ _ _ Hne Hmap Hldap) in Hrun.
    destruct (outcome (seed_loop _ _ _ _ _)) as [e|st] eqn:Hloop; [done |].
    apply seed_loop_inv in Hloop as [Hud _]; [| done].
    rewrite verdict_outcome in Hrun. injection Hrun as <-.
    cbn [new_locals l_user_dict jira_account_usernames] in Hud.
    destruct (ud_jira_account (l_user_dict st)) as [m|];
      destruct Hud as [Hud _]; rewrite Hud;
      case_bool_decide; try done;
      by destruct (partial_single_matches st) as [|p [|q l]].
  - revert Hrun Hldap. unfold _process_username.
    destruct username; [done |]. cbn [truthy negb]. rewrite Hmap.
    rewrite ldap_query_eq. intros Hrun [= Hldap]. rewrite Hldap in Hrun.
    by injection Hrun as <-.
Qed.

(** The entry of a user name in the result of a batch: the worker's dict
    without its name, whatever the order in which the workers complete. *)
Lemma collect_users_lookup env self completed users users' (u : string) :
  collect_users env self completed users = inr users' →
  users' !! u
  = if bool_decide (u ∈ completed ∧ u ≠ EmptyString)
    then match outcome (_process_username env self u) with
         | inr ud => Some (snd (pop_username ud))
         | inl _ => None
         end
    else users !! u.
Proof.
  revert users. induction completed as [|username rest IH]; intros users.
  - intros [= <-]. case_bool_decide as H; [| done].
    destruct H as [H _]. by apply elem_of_nil in H.
  - cbn [collect_users].
    destruct (outcome (_process_username env self username))
      as [e|user_d] eqn:Hrun; [done |].
    pose proof (_process_username_keeps_name _ _ _ _ Hrun) as Hname.
    unfold pop_username at 1. rewrite Hname.
    destruct username as [|a w].
    + intros Hrest. rewrite (IH _ Hrest).
      assert (Hiff : u ∈ rest ∧ u ≠ EmptyString
                     ↔ u ∈ EmptyString :: rest ∧ u ≠ EmptyString).
      { rewrite elem_of_cons. split; [tauto |]. intros [[->|] ?]; done. }
      by rewrite (bool_decide_ext _ _ Hiff).
    + intros Hrest. rewrite (IH _ Hrest).
      destruct (decide (u = String a w)) as [->|Hne].
      * rewrite Hrun, lookup_insert_eq.
        rewrite (bool_decide_eq_true_2 (_ ∈ _ :: _ ∧ _));
          [| by rewrite elem_of_cons; auto].
        by case_bool_decide.
      * rewrite lookup_insert_ne by done.
        assert (Hiff : u ∈ rest ∧ u ≠ EmptyString
                       ↔ u ∈ String a w :: rest ∧ u ≠ EmptyString).
        { rewrite elem_of_cons. tauto. }
        by rewrite (bool_decide_ext _ _ Hiff).
Qed.

Lemma collect_users_returns env self completed users :
  (∀ u, u ∈ completed →
        ∃ ud, outcome (_process_username env self u) = inr ud)
  ↔ ∃ users', collect_users env self completed users = inr users'.
Proof.
  revert users. induction completed as [|username rest IH]; intros users.
  - split; [by eexists |]. intros _ u Hu. by apply elem_of_nil in Hu.
  - cbn [collect_users]. split.
    + intros Hall. destruct (Hall username) as [ud Hud];
        [by rewrite elem_of_cons; auto |].
      rewrite Hud.
      assert (Hrest : ∀ u, u ∈ rest →
                ∃ ud, outcome (_process_username env self u) = inr ud).
      { intros u Hu. apply Hall. by rewrite elem_of_cons; auto. }
      destruct (pop_username ud) as [[[|a w]|] body]; by apply IH.
    + destruct (outcome (_process_username env self username))
        as [e|ud] eqn:Hud; [by intros [? ?] |].
      intros Hret u [->|Hu]%elem_of_cons; [by eexists |].
      revert u Hu.
      destruct (pop_username ud) as [[[|a w]|] body]; by eapply IH.
Qed.

(** The result of a batch does not depend on the order in which the
    workers complete. *)
Lemma collect_users_permutation env self completed completed' users :
  completed ≡ₚ completed' →
  collect_users env self completed ∅ = inr users →
  collect_users env self completed' ∅ = inr users.
Proof.
  intros Hperm Hrun.
  destruct (proj1 (collect_users_returns env self completed' ∅))
    as [users' Hrun'].
  { intros u Hu. rewrite <- Hperm in Hu. revert u Hu.
    apply (proj2 (collect_users_returns env self completed ∅)).
    by eexists. }
  rewrite Hrun'. f_equal. apply map_eq. intros u.
  rewrite (collect_users_lookup _ _ _ _ _ u Hrun).
  rewrite (collect_users_lookup _ _ _ _ _ u Hrun').
  assert (Hiff : u ∈ completed ∧ u ≠ EmptyString
                 ↔ u ∈ completed' ∧ u ≠ EmptyString).
  { by rewrite Hperm. }
  by rewrite (bool_decide_ext _ _ Hiff).
Qed.

(** ** The adapter calls of a run *)

Lemma _ldap_jira_match_trace self ldap_account jira_account :
  List.filter is_adapter_call
    (trace (_ldap_jira_match self ldap_account jira_account)) = [].
Proof.
  unfold _ldap_jira_match.
  destruct (name jira_account), (emailAddress jira_account),
    (displayName jira_account); simpl; repeat case_match; reflexivity.
Qed.

Lemma collect_jira_queries_trace ldap_account fields jira_queries :
  List.filter is_adapter_call
    (trace (collect_jira_queries ldap_account fields jira_queries)) = [].
Proof.
  revert jira_queries.
  induction fields as [|field fields IH]; intros jira_queries; [done |].
  cbn [collect_jira_queries].
  destruct (ldap_account !! field) as [[|a v]|].
  - rewrite trace_bind. simpl. apply IH.
  - case_bool_decide; apply IH.
  - rewrite trace_bind. simpl. apply IH.
Qed.

Lemma candidates_loop_trace self ldap_account single accounts st :
  List.filter is_adapter_call
    (trace (candidates_loop self ldap_account single accounts st)) = [].
Proof.
  revert st. induction accounts as [|acc accounts IH]; intros st; [done |].
  cbn [candidates_loop]. destruct (name acc) as [n|]; [| done].
  case_match; [apply IH |].
  rewrite trace_bind, List.filter_app, _ldap_jira_match_trace.
  destruct (_ldap_jira_match_returns self ldap_account acc)
    as (z & -> & _).
  destruct (z =? MATCH)%Z; [done | apply IH].
Qed.

Lemma verdict_trace username st :
  List.filter is_adapter_call (trace (verdict username st)) = [].
Proof.
  unfold verdict. case_bool_decide; [done |].
  destruct (partial_single_matches st) as [|p [|q l]]; simpl;
    by destruct (ud_jira_account (l_user_dict st)).
Qed.

Lemma seed_loop_trace env self ldap_account jira_queries st :
  ∃ searched,
    searched `prefix_of` jira_queries
    ∧ List.filter is_adapter_call
        (trace (seed_loop env self ldap_account jira_queries st))
      = List.map (λ q, JiraSearchUsers q 10) searched.
Proof.
  revert st. induction jira_queries as [|query rest IH]; intros st.
  { by exists []. }
  cbn [seed_loop]. rewrite trace_bind. cbn [jira_search_user].
  rewrite List.filter_app. simpl.
  rewrite trace_bind, List.filter_app, candidates_loop_trace. simpl.
  destruct (outcome (candidates_loop _ _ _ _ st)) as [e|st1].
  { exists [query]. split; [| done]. by apply prefix_cons, prefix_nil. }
  case_bool_decide.
  - exists [query]. split; [| done]. by apply prefix_cons, prefix_nil.
  - destruct (IH st1) as (searched & Hpre & ->).
    exists (query :: searched). split; [by apply prefix_cons | done].
Qed.

(** X1: the adapter calls of one worker run, in order. A run for the empty
    name or for a key of the map calls no adapter. Any other run queries the
    directory exactly once, with the name and the configured fields, and
    then searches accounts only when the directory returned one record: the
    searches are for the first search values of that record, each value at
    most once, in their order, with at most ten results asked. *)
Theorem adapter_calls_of_worker env self (username : string) :
  let calls :=
    List.filter is_adapter_call
      (trace (_process_username env self username)) in
  if bool_decide (username = EmptyString ∨ is_Some (map_ self !! username))
  then calls = []
  else ∃ searched,
    calls = LdapQuery username (ldap_query_fields_username self)
              (return_fields self)
            :: List.map (λ q, JiraSearchUsers q 10) searched
    ∧ NoDup searched
    ∧ match LDAPLookup_query env username (ldap_query_fields_username self)
              (return_fields self) with
      | [ldap_account] =>
        searched `prefix_of`
          seed_sequence_spec ldap_account (ldap_fields_jira_search self)
      | _ => searched = []
      end.
Proof.
  intros calls. subst calls. case_bool_decide as Hcase.
  - destruct Hcase as [->|[account Hmap]]; [done |].
    destruct (decide (username = EmptyString)) as [->|Hne]; [done |].
    by rewrite (_process_username_in_map _ _ _ _ Hne Hmap).
  - destruct (map_ self !! username) as [account|] eqn:Hmap';
      [destruct Hcase; right; by eexists |].
    unfold _process_username.
    destruct username as [|c u]; [destruct Hcase; by left |].
    cbn [truthy negb]. rewrite Hmap', ldap_query_eq.
    fold (return_fields self).
    destruct (LDAPLookup_query env (String c u) _ _)
      as [|ldap_account [|r2 rs]].
    + exists []. split; [done |]. split; [constructor | done].
    + rewrite !trace_bind. cbn [outcome snd log emit trace fst].
      rewrite trace_bind, collect_jira_queries_spec, trace_bind.
      destruct (seed_loop_trace env self ldap_account
                  (seed_sequence_spec ldap_account
                     (ldap_fields_jira_search self))
                  (new_locals (new_user_dict (String c u))))
        as (searched & Hpre & Htr).
      exists searched. split; [| split; [| done]].
      * cbn [app]. cbn [List.filter is_adapter_call].
        rewrite !List.filter_app, collect_jira_queries_trace, Htr.
        cbn [app]. f_equal.
        destruct (outcome (seed_loop _ _ _ _ _)); [by rewrite app_nil_r |].
        by rewrite verdict_trace, app_nil_r.
      * destruct Hpre as [rest Hrest].
        pose proof (first_seen_NoDup
                      (omap (field_value ldap_account)
                         (ldap_fields_jira_search self))) as Hnd.
        fold (seed_sequence_spec ldap_account
                (ldap_fields_jira_search self)) in Hnd.
        rewrite Hrest in Hnd. by apply NoDup_app in Hnd as [? _].
    + exists []. split; [done |]. split; [constructor | done].
Qed.

(** ** The scores *)

Lemma elem_of_ldap_values (ldap_account : gmap string string) fields v :
  v ∈ ldap_values ldap_account fields
  ↔ ∃ f, f ∈ fields ∧ ldap_account !! f = Some v.
Proof.
  unfold ldap_values. rewrite elem_of_list_to_set, list_elem_of_omap.
  done.
Qed.

(** X2: what each score means. An account scores a match exactly when it has
    its three attributes, its email is in the configured domain, and its
    email is the record's value of a mail field or its name is the record's
    value of a user name field. It scores a partial match exactly when it
    has its attributes and the domain, neither of those two holds, and its
    name or its display name is the record's value of a name field. *)
Theorem score_meaning self (ldap_account : gmap string string)
    (jira_account : jira_user) :
  let in_fields v fields :=
    ∃ f, f ∈ fields ∧ ldap_account !! f = Some v in
  let in_domain n e d :=
    name jira_account = Some n ∧ emailAddress jira_account = Some e
    ∧ displayName jira_account = Some d
    ∧ endswith e ("@" +:+ email_domain self) = true in
  (outcome (_ldap_jira_match self ldap_account jira_account) = inr MATCH
   ↔ ∃ n e d, in_domain n e d
              ∧ (in_fields e (ldap_fields_mail self)
                 ∨ in_fields n (ldap_fields_username self)))
  ∧ (outcome (_ldap_jira_match self ldap_account jira_account)
     = inr PARTIAL_MATCH
     ↔ ∃ n e d, in_domain n e d
                ∧ ¬ in_fields e (ldap_fields_mail self)
                ∧ ¬ in_fields n (ldap_fields_username self)
                ∧ (in_fields n (ldap_fields_name self)
                   ∨ in_fields d (ldap_fields_name self))).
Proof.
  intros in_fields in_domain. subst in_fields in_domain. cbv beta.
  setoid_rewrite <- elem_of_ldap_values.
  unfold _ldap_jira_match.
  destruct (name jira_account) as [n|];
    [| split; (split; [done | by intros (? & ? & ? & (? & _) & _)])].
  destruct (emailAddress jira_account) as [e|];
    [| split; (split; [done | by intros (? & ? & ? & (? & ? & _) & _)])].
  destruct (displayName jira_account) as [d|];
    [| split;
       (split; [done | by intros (? & ? & ? & (? & ? & ? & _) & _)])].
  rewrite !outcome_bind. cbn [outcome log emit snd].
  destruct (endswith e ("@" +:+ email_domain self)) eqn:Hgate;
    [| split;
       (split; [done |
                intros (? & ? & ? & (? & [= <-] & ? & Hg) & _);
                congruence])].
  destruct (bool_decide (e ∈ ldap_values ldap_account
                              (ldap_fields_mail self))) eqn:He;
    [apply bool_decide_eq_true in He | apply bool_decide_eq_false in He];
  (destruct (bool_decide (n ∈ ldap_values ldap_account
                               (ldap_fields_username self))) eqn:Hn;
    [apply bool_decide_eq_true in Hn | apply bool_decide_eq_false in Hn]);
  cbn [orb outcome bind log emit ret snd fst].
  1-3: split; [split; [intros _; exists n, e, d; tauto | done] |];
       split; [done |];
       intros (? & ? & ? & ([= <-] & [= <-] & _) & ? & ? & _); tauto.
  case_bool_decide as Hnames; cbn [outcome bind log emit ret snd fst].
  - split.
    { split; [done |].
      intros (? & ? & ? & ([= <-] & [= <-] & _) & [?|?]); tauto. }
    split; [| done]. intros _. exists n, e, d.
    split; [done |]. split; [done |]. split; [done |].
    apply set_choose_L in Hnames as [x Hx]. set_solver.
  - split.
    { split; [done |].
      intros (? & ? & ? & ([= <-] & [= <-] & _) & [?|?]); tauto. }
    split; [done |].
    intros (? & ? & ? & ([= <-] & _ & [= <-] & _) & _ & _ & Hor).
    exfalso. set_solver.
Qed.

(** ** When the worker returns and when it raises *)

Lemma candidates_loop_returns self ldap_account single accounts st :
  (∀ acc, acc ∈ accounts → is_Some (name acc)) →
  ∃ st', outcome (candidates_loop self ldap_account single accounts st)
         = inr st'.
Proof.
  revert st. induction accounts as [|acc accounts IH]; intros st Hnamed.
  { by eexists. }
  cbn [candidates_loop].
  destruct (Hnamed acc) as [n ->]; [by rewrite elem_of_cons; auto |].
  assert (Hrest : ∀ a, a ∈ accounts → is_Some (name a)).
  { intros a Ha. apply Hnamed. by rewrite elem_of_cons; auto. }
  case_match; [by apply IH |]. rewrite outcome_bind.
  destruct (_ldap_jira_match_returns self ldap_account acc)
    as (z & -> & _).
  destruct (z =? MATCH)%Z; [by eexists | by apply IH].
Qed.

Lemma seed_loop_returns env self ldap_account jira_queries st :
  (∀ q acc, q ∈ jira_queries → acc ∈ JIRA_search_users env q 10 →
            is_Some (name acc)) →
  ∃ st', outcome (seed_loop env self ldap_account jira_queries st)
         = inr st'.
Proof.
  revert st. induction jira_queries as [|query rest IH]; intros st Hnamed.
  { by eexists. }
  cbn [seed_loop]. rewrite outcome_bind. cbn [jira_search_user outcome snd
    bind log emit ret fst]. rewrite outcome_bind.
  destruct (candidates_loop_returns self ldap_account
              (length (JIRA_search_users env query 10) =? 1)%nat
              (JIRA_search_users env query 10) st) as [st1 ->].
  { intros acc. apply Hnamed. by rewrite elem_of_cons; auto. }
  case_bool_decide; [by eexists |]. apply IH.
  intros q acc Hq. apply Hnamed. by rewrite elem_of_cons; auto.
Qed.

(** X3: when every account the search adapter returns has a name, the worker
    returns a user dict for every user name: it raises nothing of its own. *)
Theorem worker_returns env self (username : string) :
  (∀ q acc, acc ∈ JIRA_search_users env q 10 → is_Some (name acc)) →
  ∃ ud, outcome (_process_username env self username) = inr ud.
Proof.
  intros Hnamed.
  destruct (decide (username = EmptyString)) as [->|Hne]; [by eexists |].
  destruct (map_ self !! username) as [account|] eqn:Hmap.
  { rewrite (_process_username_in_map _ _ _ _ Hne Hmap). by eexists. }
  destruct (outcome (ldap_query env self username)) as [e|rs] eqn:Hldap;
    [done |].
  destruct rs as [|ldap_account [|r2 rs]].
  - revert Hldap. unfold _process_username.
    destruct username; [done |]. cbn [truthy negb]. rewrite Hmap.
    rewrite ldap_query_eq. intros [= ->]. by eexists.
  - rewrite (_process_username_single _ _ _ _ Hne Hmap Hldap).
    destruct (seed_loop_returns env self ldap_account
                (seed_sequence_spec ldap_account
                   (ldap_fields_jira_search self))
                (new_locals (new_user_dict username))) as [st ->].
    { intros q acc _. apply Hnamed. }
    rewrite verdict_outcome. by eexists.
  - revert Hldap. unfold _process_username.
    destruct username; [done |]. cbn [truthy negb]. rewrite Hmap.
    rewrite ldap_query_eq. intros [= ->]. by eexists.
Qed.

Lemma worker_returns_witness :
  ∃ ud, outcome (_process_username env_single_partial self_example "bob")
        = inr ud.
Proof.
  apply (worker_returns env_single_partial self_example "bob").
  intros q acc. unfold env_single_partial, search_single_partial. simpl.
  case_bool_decide; intros Hacc.
  - apply list_elem_of_singleton in Hacc as ->. by eexists.
  - by apply elem_of_nil in Hacc.
Defined.

Lemma candidates_loop_nameless self ldap_account single pre acc post st :
  name acc = None →
  (∀ a, a ∈ pre →
        is_Some (name a)
        ∧ outcome (_ldap_jira_match self ldap_account a) ≠ inr MATCH) →
  outcome (candidates_loop self ldap_account single (pre ++ acc :: post) st)
  = inl (AttributeError "name").
Proof.
  intros Hacc. revert st. induction pre as [|a pre IH]; intros st Hpre.
  { cbn [app candidates_loop]. by rewrite Hacc. }
  cbn [app candidates_loop].
  destruct (Hpre a) as [[n ->] Hscore]; [by rewrite elem_of_cons; auto |].
  assert (Hrest : ∀ a', a' ∈ pre →
            is_Some (name a')
            ∧ outcome (_ldap_jira_match self ldap_account a') ≠ inr MATCH).
  { intros a' Ha'. apply Hpre. by rewrite elem_of_cons; auto. }
  case_match; [by apply IH |]. rewrite outcome_bind.
  destruct (_ldap_jira_match_returns self ldap_account a)
    as (z & Hz & _). rewrite Hz in *.
  destruct (z =? MATCH)%Z eqn:Hm; [| by apply IH].
  apply Z.eqb_eq in Hm as ->. done.
Qed.

(** X4: the scorer gives [NO_MATCH] to an account without a name, but the
    worker reads the name before it calls the scorer. When the search for
    the first search value of the record returns an account without a name,
    and the accounts before it in that result have names and do not score a
    match, the worker raises [AttributeError] and returns no result. *)
Theorem nameless_account_raises env self (username : string)
    (ldap_account : gmap string string) (query : string)
    (rest : list string) (pre post : list jira_user) (acc : jira_user) :
  username ≠ EmptyString →
  map_ self !! username = None →
  outcome (ldap_query env self username) = inr [ldap_account] →
  seed_sequence_spec ldap_account (ldap_fields_jira_search self)
  = query :: rest →
  JIRA_search_users env query 10 = pre ++ acc :: post →
  name acc = None →
  (∀ a, a ∈ pre →
        is_Some (name a)
        ∧ outcome (_ldap_jira_match self ldap_account a) ≠ inr MATCH) →
  outcome (_ldap_jira_match self ldap_account acc) = inr NO_MATCH
  ∧ outcome (_process_username env self username)
    = inl (AttributeError "name").
Proof.
  intros Hne Hmap Hldap Hseeds Hsearch Hacc Hpre. split.
  { unfold _ldap_jira_match. by rewrite Hacc. }
  rewrite (_process_username_single _ _ _ _ Hne Hmap Hldap), Hseeds.
  cbn [seed_loop]. rewrite outcome_bind.
  cbn [jira_search_user outcome snd bind log emit ret fst].
  rewrite outcome_bind, Hsearch.
  by rewrite (candidates_loop_nameless _ _ _ _ _ _ _ Hacc Hpre).
Qed.

Lemma nameless_account_raises_witness :
  outcome (_process_username env_nameless self_example "bob")
  = inl (AttributeError "name").
Proof.
  refine (proj2 (nameless_account_raises env_nameless self_example "bob"
                   bob_record "Bob Brown" ["bob"; "bob@corp.com"] [] []
                   {| name := None; emailAddress := Some "x@corp.com";
                      displayName := Some "Bob Brown" |}
                   _ _ _ _ _ _ _)).
  - discriminate.
  - reflexivity.
  - vm_compute. reflexivity.
  - vm_compute. reflexivity.
  - reflexivity.
  - reflexivity.
  - intros a Ha. by apply elem_of_nil in Ha.
Defined.

(** ** What a result says *)

(** X5: an account the worker reports for a name that is not in the map was
    returned by one of the searches for the record's search values, and
    there it scored a match, or it was the only result and scored a partial
    match; so its email is in the configured domain. *)
Theorem found_is_justified env self (username : string) (ud : user_dict)
    (a : string) :
  map_ self !! username = None →
  outcome (_process_username env self username) = inr ud →
  ud_jira_account ud = Some a →
  ∃ ldap_account query acc email,
    outcome (ldap_query env self username) = inr [ldap_account]
    ∧ query ∈ seed_sequence_spec ldap_account (ldap_fields_jira_search self)
    ∧ acc ∈ JIRA_search_users env query 10
    ∧ name acc = Some a
    ∧ (outcome (_ldap_jira_match self ldap_account acc) = inr MATCH
       ∨ outcome (_ldap_jira_match self ldap_account acc)
         = inr PARTIAL_MATCH
         ∧ JIRA_search_users env query 10 = [acc])
    ∧ emailAddress acc = Some email
    ∧ endswith email ("@" +:+ email_domain self) = true.
Proof.
  intros Hmap Hrun Ha.
  destruct (decide (username = EmptyString)) as [->|Hne].
  { rewrite trace_process_empty in Hrun. injection Hrun as <-. done. }
  destruct (outcome (ldap_query env self username)) as [e|rs] eqn:Hldap;
    [done |].
  destruct rs as [|ldap_account [|r2 rs]].
  - revert Hrun Hldap. unfold _process_username.
    destruct username; [done |]. cbn [truthy negb]. rewrite Hmap.
    rewrite ldap_query_eq. intros Hrun [= Hldap]. rewrite Hldap in Hrun.
    injection Hrun as <-. done.
  - rewrite (_process_username_single _ _ _ _ Hne Hmap Hldap) in Hrun.
    destruct (outcome (seed_loop _ _ _ _ _)) as [e|st] eqn:Hloop; [done |].
    apply seed_loop_inv in Hloop as [Hud Hpart]; [| done].
    rewrite verdict_outcome in Hrun. injection Hrun as <-.
    cbn [new_locals l_user_dict jira_account_usernames
         partial_single_matches] in Hud, Hpart.
    assert (Hacc : ∃ query acc,
      query ∈ seed_sequence_spec ldap_account (ldap_fields_jira_search self)
      ∧ acc ∈ JIRA_search_users env query 10
      ∧ name acc = Some a
      ∧ (outcome (_ldap_jira_match self ldap_account acc) = inr MATCH
         ∨ outcome (_ldap_jira_match self ldap_account acc)
           = inr PARTIAL_MATCH
           ∧ JIRA_search_users env query 10 = [acc])).
    { case_bool_decide as Hempty.
      - destruct (ud_jira_account (l_user_dict st)) as [m|] eqn:Hm.
        + destruct Hud as (_ & Hin & _). rewrite Hempty in Hin.
          by apply not_elem_of_empty in Hin.
        + simpl in Ha. congruence.
      - destruct (partial_single_matches st) as [|p [|p' l]] eqn:Hp.
        + destruct (ud_jira_account (l_user_dict st)) as [m|] eqn:Hm;
            [| simpl in Ha; congruence].
          destruct Hud as (_ & _ & q & acc & ? & ? & ? & ?).
          rewrite Hm in Ha. injection Ha as <-. exists q, acc. auto.
        + simpl in Ha. injection Ha as <-.
          destruct (Hpart p) as [Hin|(q & acc & ? & Hs & ? & ?)];
            [by rewrite elem_of_cons; auto | by apply elem_of_nil in Hin |].
          exists q, acc. split; [done |]. split; [| auto].
          rewrite Hs. by apply list_elem_of_singleton.
        + destruct (ud_jira_account (l_user_dict st)) as [m|] eqn:Hm;
            [| simpl in Ha; congruence].
          destruct Hud as (_ & _ & q & acc & ? & ? & ? & ?).
          rewrite Hm in Ha. injection Ha as <-. exists q, acc. auto. }
    destruct Hacc as (q & acc & Hq & Hin & Hname & Hscore).
    destruct (_ldap_jira_match_past_gate self ldap_account acc)
      as (n & email & d & _ & Hmail & _ & Hgate).
    { destruct Hscore as [-> | [-> _]]; done. }
    exists ldap_account, q, acc, email. auto 10.
  - revert Hrun Hldap. unfold _process_username.
    destruct username; [done |]. cbn [truthy negb]. rewrite Hmap.
    rewrite ldap_query_eq. intros Hrun [= Hldap]. rewrite Hldap in Hrun.
    injection Hrun as <-. done.
Qed.

Lemma found_is_justified_witness :
  ∃ ldap_account query acc email,
    outcome (ldap_query env_single_partial self_example "bob")
    = inr [ldap_account]
    ∧ query ∈ seed_sequence_spec ldap_account
                (ldap_fields_jira_search self_example)
    ∧ acc ∈ JIRA_search_users env_single_partial query 10
    ∧ name acc = Some "bbrown"
    ∧ (outcome (_ldap_jira_match self_example ldap_account acc) = inr MATCH
       ∨ outcome (_ldap_jira_match self_example ldap_account acc)
         = inr PARTIAL_MATCH
         ∧ JIRA_search_users env_single_partial query 10 = [acc])
    ∧ emailAddress acc = Some email
    ∧ endswith email ("@" +:+ email_domain self_example) = true.
Proof.
  apply (found_is_justified env_single_partial self_example "bob"
           {| ud_username := Some "bob"; ud_status := Some "found";
              ud_jira_account := Some "bbrown";
              ud_jira_results := None |} "bbrown").
  - reflexivity.
  - vm_compute. reflexivity.
  - reflexivity.
Defined.

Lemma seed_loop_no_accounts env self ldap_account jira_queries st :
  ud_jira_account (l_user_dict st) = None →
  (∀ q, q ∈ jira_queries → JIRA_search_users env q 10 = []) →
  outcome (seed_loop env self ldap_account jira_queries st) = inr st
  ∧ List.filter is_adapter_call
      (trace (seed_loop env self ldap_account jira_queries st))
    = List.map (λ q, JiraSearchUsers q 10) jira_queries.
Proof.
  intros Hnone. induction jira_queries as [|query rest IH]; intros Hempty.
  { done. }
  cbn [seed_loop]. rewrite outcome_bind, trace_bind.
  cbn [jira_search_user outcome snd bind log emit ret fst trace].
  rewrite outcome_bind, trace_bind.
  rewrite (Hempty query) by (rewrite elem_of_cons; auto).
  cbn [candidates_loop length Nat.eqb outcome trace ret fst snd].
  rewrite Hnone. rewrite bool_decide_eq_false_2 by by intros [? ?].
  destruct IH as [-> Htr].
  { intros q Hq. apply Hempty. rewrite elem_of_cons; auto. }
  split; [done |]. cbn [app List.filter is_adapter_call].
  by rewrite Htr.
Qed.

Lemma filter_jira_search_adapter (l : list event) :
  List.filter is_jira_search l
  = List.filter is_jira_search (List.filter is_adapter_call l).
Proof. induction l as [|[] l IH]; simpl; congruence. Qed.

Lemma filter_jira_search_map (l : list string) :
  List.filter is_jira_search (List.map (λ q, JiraSearchUsers q 10) l)
  = List.map (λ q, JiraSearchUsers q 10) l.
Proof. induction l as [|q l IH]; simpl; congruence. Qed.

Lemma worker_single_adapter_calls env self username ldap_account :
  username ≠ EmptyString →
  map_ self !! username = None →
  outcome (ldap_query env self username) = inr [ldap_account] →
  List.filter is_adapter_call (trace (_process_username env self username))
  = LdapQuery username (ldap_query_fields_username self)
      (return_fields self)
    :: List.filter is_adapter_call
         (trace (seed_loop env self ldap_account
                   (seed_sequence_spec ldap_account
                      (ldap_fields_jira_search self))
                   (new_locals (new_user_dict username)))).
Proof.
  intros Hne Hmap. rewrite ldap_query_eq. intros [= Hldap].
  unfold _process_username. destruct username as [|c u]; [done |].
  cbn [truthy negb]. rewrite Hmap, ldap_query_eq, Hldap.
  rewrite !trace_bind. cbn [outcome snd log emit trace fst].
  rewrite trace_bind, collect_jira_queries_spec, trace_bind.
  cbn [app List.filter is_adapter_call].
  rewrite !List.filter_app, collect_jira_queries_trace. cbn [app]. f_equal.
  destruct (outcome (seed_loop _ _ _ _ _)); [by rewrite app_nil_r |].
  by rewrite verdict_trace, app_nil_r.
Qed.

(** X6: when the directory has one record for a name that is not empty and
    not in the map, and no search for a search value of the record returns
    an account, the worker searches every search value once, in order, and
    returns missing, with no account and no candidates. A record with none
    of the search fields is the case of no search at all. *)
Theorem no_candidates_missing env self (username : string)
    (ldap_account : gmap string string) :
  username ≠ EmptyString →
  map_ self !! username = None →
  outcome (ldap_query env self username) = inr [ldap_account] →
  (∀ q, q ∈ seed_sequence_spec ldap_account (ldap_fields_jira_search self)
        → JIRA_search_users env q 10 = []) →
  outcome (_process_username env self username)
  = inr {| ud_username := Some username; ud_status := Some "missing";
           ud_jira_account := None; ud_jira_results := None |}
  ∧ List.filter is_jira_search
      (trace (_process_username env self username))
    = List.map (λ q, JiraSearchUsers q 10)
        (seed_sequence_spec ldap_account (ldap_fields_jira_search self)).
Proof.
  intros Hne Hmap Hldap Hempty.
  destruct (seed_loop_no_accounts env self ldap_account
              (seed_sequence_spec ldap_account
                 (ldap_fields_jira_search self))
              (new_locals (new_user_dict username)) eq_refl Hempty)
    as [Hout Htr].
  split.
  - rewrite (_process_username_single _ _ _ _ Hne Hmap Hldap), Hout.
    by rewrite verdict_outcome.
  - rewrite filter_jira_search_adapter.
    rewrite (worker_single_adapter_calls _ _ _ _ Hne Hmap Hldap), Htr.
    simpl. apply filter_jira_search_map.
Qed.

Lemma no_candidates_missing_witness :
  outcome (_process_username env_no_accounts self_example "bob")
  = inr {| ud_username := Some "bob"; ud_status := Some "missing";
           ud_jira_account := None; ud_jira_results := None |}.
Proof.
  refine (proj1 (no_candidates_missing env_no_accounts self_example "bob"
                   bob_record _ _ _ _)).
  - discriminate.
  - reflexivity.
  - vm_compute. reflexivity.
  - reflexivity.
Defined.

(** X7: the shape of every result for a name that is not empty. It keeps the
    name, has one of the four statuses, has an account exactly when the
    status is found, and has candidates exactly when the status is
    ambiguous; the candidates are then not empty. *)
Theorem result_shape env self (username : string) (ud : user_dict) :
  username ≠ EmptyString →
  outcome (_process_username env self username) = inr ud →
  ud_username ud = Some username
  ∧ (ud_status ud = Some "found" ∨ ud_status ud = Some "missing"
     ∨ ud_status ud = Some "ambiguous" ∨ ud_status ud = Some "not_in_ldap")
  ∧ (is_Some (ud_jira_account ud) ↔ ud_status ud = Some "found")
  ∧ (is_Some (ud_jira_results ud) ↔ ud_status ud = Some "ambiguous")
  ∧ (∀ names, ud_jira_results ud = Some names → names ≠ ∅).
Proof.
  intros Hne Hrun.
  destruct (map_ self !! username) as [account|] eqn:Hmap.
  { rewrite (_process_username_in_map _ _ _ _ Hne Hmap) in Hrun.
    injection Hrun as <-. simpl.
    split; [done |]. split; [auto |]. split; [by split; eauto |].
    split; [| done]. split; [by intros [? ?] | done]. }
  destruct (outcome (ldap_query env self username)) as [e|rs] eqn:Hldap;
    [done |].
  assert (Hflat : ∀ status ud',
    status = "missing" ∨ status = "not_in_ldap" →
    ud' = with_status (new_user_dict username) status →
    ud_username ud' = Some username
    ∧ (ud_status ud' = Some "found" ∨ ud_status ud' = Some "missing"
       ∨ ud_status ud' = Some "ambiguous"
       ∨ ud_status ud' = Some "not_in_ldap")
    ∧ (is_Some (ud_jira_account ud') ↔ ud_status ud' = Some "found")
    ∧ (is_Some (ud_jira_results ud') ↔ ud_status ud' = Some "ambiguous")
    ∧ (∀ names, ud_jira_results ud' = Some names → names ≠ ∅)).
  { intros status ud' Hs ->. simpl. split; [done |].
    destruct Hs as [-> | ->]; (split; [auto |]);
      (split; [split; [by intros [? ?] | done] |]);
      (split; [split; [by intros [? ?] | done] | done]). }
  destruct rs as [|ldap_account [|r2 rs]].
  - revert Hrun Hldap. unfold _process_username.
    destruct username; [done |]. cbn [truthy negb]. rewrite Hmap.
    rewrite ldap_query_eq. intros Hrun [= Hldap]. rewrite Hldap in Hrun.
    injection Hrun as <-. apply (Hflat "not_in_ldap"); auto.
  - rewrite (_process_username_single _ _ _ _ Hne Hmap Hldap) in Hrun.
    destruct (outcome (seed_loop _ _ _ _ _)) as [e|st] eqn:Hloop; [done |].
    apply seed_loop_inv in Hloop as [Hud _]; [| done].
    rewrite verdict_outcome in Hrun. injection Hrun as <-.
    cbn [new_locals l_user_dict jira_account_usernames] in Hud.
    case_bool_decide as Hempty.
    + destruct (ud_jira_account (l_user_dict st)) as [m|] eqn:Hm.
      * destruct Hud as (_ & Hin & _). rewrite Hempty in Hin.
        by apply not_elem_of_empty in Hin.
      * destruct Hud as [Hud _]. apply (Hflat "missing"); [auto |].
        by rewrite Hud.
    + destruct (ud_jira_account (l_user_dict st)) as [m|] eqn:Hm;
        destruct Hud as [Hud Hseen]; rewrite Hud;
        destruct (partial_single_matches st) as [|p [|p' l]]; simpl;
        repeat split;
        first [ done | by auto | by eauto | by intros [? ?]
              | by intros ? [= <-] ].
  - revert Hrun Hldap. unfold _process_username.
    destruct username; [done |]. cbn [truthy negb]. rewrite Hmap.
    rewrite ldap_query_eq. intros Hrun [= Hldap]. rewrite Hldap in Hrun.
    injection Hrun as <-. apply (Hflat "missing"); auto.
Qed.

Lemma result_shape_witness :
  ud_username
    {| ud_username := Some "bob"; ud_status := Some "ambiguous";
       ud_jira_account := None;
       ud_jira_results :=
         Some ({[ "bbrown" ]} ∪ {[ "brownb" ]} : gset string) |}
  = Some "bob".
Proof.
  refine (proj1 (result_shape (env_two_partial false) self_example "bob"
                   _ _ _)).
  - discriminate.
  - vm_compute. reflexivity.
Defined.

(** ** The batch *)

(** X8: the result of a batch that returns has one entry for every name of
    the input that is not empty, and no other entry: the empty name is
    dropped and a name given several times has one entry. The entry of a
    name is the user dict of its worker, run on the instance with the merged
    map, without the name. *)
Theorem batch_entries fs env self (usernames : list string)
    (users : gmap string user_dict) :
  snd (find_jira_accounts fs env self usernames) = inr users →
  dom users
  = list_to_set (filter (λ u, u ≠ EmptyString) usernames)
  ∧ ∀ u entry,
      users !! u = Some entry →
      ud_username entry = None
      ∧ ∃ ud,
          outcome (_process_username env
                     (fst (find_jira_accounts fs env self usernames)) u)
          = inr ud
          ∧ entry = snd (pop_username ud).
Proof.
  unfold find_jira_accounts.
  destruct (outcome (load_map fs (map_file self))) as [e|loaded]; [done |].
  cbn [fst snd]. intros Hrun.
  pose proof (λ u, collect_users_lookup _ _ _ _ _ u Hrun) as Hlook.
  pose proof (proj2 (collect_users_returns _ _ _ _) (ex_intro _ _ Hrun))
    as Hret.
  split.
  - apply set_eq. intros u.
    rewrite elem_of_dom, elem_of_list_to_set, list_elem_of_filter, Hlook.
    case_bool_decide as Hu.
    + destruct Hu as [Hin Hne]. destruct (Hret u Hin) as [ud ->].
      split; [done | by eexists].
    + rewrite lookup_empty. split; [by intros [? ?] | tauto].
  - intros u entry. rewrite Hlook. case_bool_decide as Hu; [| done].
    destruct Hu as [Hin Hne]. destruct (Hret u Hin) as [ud Hud].
    rewrite Hud. intros [= <-]. split; [done |]. by exists ud.
Qed.

Lemma batch_entries_witness :
  dom ({[ "bob" := {| ud_username := None; ud_status := Some "found";
                      ud_jira_account := Some "bbrown";
                      ud_jira_results := None |} ]}
       : gmap string user_dict)
  = list_to_set (filter (λ u, u ≠ EmptyString)
                   ["bob"; EmptyString; "bob"]).
Proof.
  refine (proj1 (batch_entries no_file env_single_partial self_example
                   ["bob"; EmptyString; "bob"] _ _)).
  vm_compute. reflexivity.
Defined.

(** X9: one worker that raises makes the whole batch raise, with no
    result for the other names. A batch returns only when the number of
    workers asked for, if one is given, is positive, the map file loads,
    and the worker of every name of the input returns on the instance with
    the merged map. *)
Theorem batch_returns_only_if fs env self (usernames : list string)
    (max_workers : option Z) (users : gmap string user_dict) :
  snd (find_jira_accounts_workers fs env self usernames max_workers)
  = inr users →
  (∀ n, max_workers = Some n → (0 < n)%Z)
  ∧ ∃ loaded,
      outcome (load_map fs (map_file self)) = inr loaded
      ∧ ∀ u, u ∈ usernames →
             ∃ ud, outcome (_process_username env
                              (with_map self (loaded ∪ map_ self)) u)
                   = inr ud.
Proof.
  unfold find_jira_accounts_workers.
  destruct (outcome (load_map fs (map_file self))) as [e|loaded]; [done |].
  destruct max_workers as [n|].
  - destruct (Z.leb_spec n 0); [done |]. cbn [snd]. intros Hrun.
    split; [by intros ? [= <-] |]. exists loaded. split; [done |].
    apply (proj2 (collect_users_returns _ _ _ ∅)). by eexists.
  - cbn [snd]. intros Hrun. split; [done |]. exists loaded.
    split; [done |].
    apply (proj2 (collect_users_returns _ _ _ ∅)). by eexists.
Qed.

Lemma batch_returns_only_if_witness :
  ∃ ud, outcome (_process_username env_single_partial
                   (with_map self_example (∅ ∪ map_ self_example)) "bob")
        = inr ud.
Proof.
  destruct (batch_returns_only_if no_file env_single_partial self_example
              ["bob"] (Some 4%Z)
              {[ "bob" := {| ud_username := None;
                             ud_status := Some "found";
                             ud_jira_account := Some "bbrown";
                             ud_jira_results := None |} ]})
    as [_ (loaded & Hload & Hall)].
  - vm_compute. reflexivity.
  - injection Hload as <-. apply Hall, list_elem_of_here.
Defined.

(** X21: a number of workers that is not positive makes the batch raise
    [ValueError] when it creates the pool, which is after the map file was
    merged: the instance keeps the merged map although no name was
    resolved. *)
Theorem nonpositive_max_workers fs env self (usernames : list string)
    (loaded : gmap string string) (n : Z) :
  outcome (load_map fs (map_file self)) = inr loaded →
  (n ≤ 0)%Z →
  find_jira_accounts_workers fs env self usernames (Some n)
  = (with_map self (loaded ∪ map_ self),
     inl (ValueError "max_workers must be greater than 0")).
Proof.
  intros Hload Hn. unfold find_jira_accounts_workers. rewrite Hload.
  by rewrite (proj2 (Z.leb_le n 0) Hn).
Qed.

Lemma nonpositive_max_workers_witness :
  find_jira_accounts_workers (json_file {[ "alice" := "alice.j" ]})
    env_single_partial (with_map_file self_example (Some "map.json"))
    ["bob"] (Some 0%Z)
  = (with_map (with_map_file self_example (Some "map.json"))
       ({[ "alice" := "alice.j" ]}
        ∪ map_ (with_map_file self_example (Some "map.json"))),
     inl (ValueError "max_workers must be greater than 0")).
Proof.
  apply (nonpositive_max_workers (json_file {[ "alice" := "alice.j" ]})
           env_single_partial
           (with_map_file self_example (Some "map.json")) ["bob"]
           {[ "alice" := "alice.j" ]} 0%Z).
  - vm_compute. reflexivity.
  - lia.
Defined.

(** X10: the result of a batch does not depend on the order of the names,
    which is the order the workers complete in. *)
Theorem batch_order_irrelevant fs env self (usernames usernames' : list string)
    (users : gmap string user_dict) :
  usernames ≡ₚ usernames' →
  snd (find_jira_accounts fs env self usernames) = inr users →
  find_jira_accounts fs env self usernames'
  = find_jira_accounts fs env self usernames.
Proof.
  unfold find_jira_accounts. intros Hperm.
  destruct (outcome (load_map fs (map_file self))) as [e|loaded]; [done |].
  cbn [snd]. intros Hrun.
  by rewrite Hrun, (collect_users_permutation _ _ _ _ _ Hperm Hrun).
Qed.

Lemma batch_order_irrelevant_witness :
  find_jira_accounts no_file env_single_partial self_example
    ["ghost"; "bob"]
  = find_jira_accounts no_file env_single_partial self_example
      ["bob"; "ghost"].
Proof.
  refine (batch_order_irrelevant no_file env_single_partial self_example
            ["bob"; "ghost"] ["ghost"; "bob"] _ _ _).
  - apply perm_swap.
  - vm_compute. reflexivity.
Defined.

(** X11: a name that is not empty and is a key of the map file is resolved
    from the file in the very call that loads it: its entry in the result is
    found with the account of the file, whatever the map held before for
    that name and whatever the adapters would answer. *)
Theorem batch_resolves_from_file fs env self (usernames : list string)
    (loaded : gmap string string) (users : gmap string user_dict)
    (k v : string) :
  outcome (load_map fs (map_file self)) = inr loaded →
  loaded !! k = Some v →
  k ≠ EmptyString →
  k ∈ usernames →
  snd (find_jira_accounts fs env self usernames) = inr users →
  users !! k
  = Some {| ud_username := None; ud_status := Some "found";
            ud_jira_account := Some v; ud_jira_results := None |}.
Proof.
  intros Hload Hk Hne Hin. unfold find_jira_accounts. rewrite Hload.
  cbn [snd]. intros Hrun.
  rewrite (collect_users_lookup _ _ _ _ _ k Hrun).
  rewrite bool_decide_eq_true_2 by done.
  rewrite (_process_username_in_map _ _ _ v Hne); [done |].
  by apply lookup_union_Some_l.
Qed.

Lemma batch_resolves_from_file_witness :
  ({[ "alice" := {| ud_username := None; ud_status := Some "found";
                    ud_jira_account := Some "alice.j";
                    ud_jira_results := None |} ]}
   : gmap string user_dict) !! "alice"
  = Some {| ud_username := None; ud_status := Some "found";
            ud_jira_account := Some "alice.j"; ud_jira_results := None |}.
Proof.
  refine (batch_resolves_from_file (json_file {[ "alice" := "alice.j" ]})
            env_single_partial
            (with_map_file self_example (Some "map.json")) ["alice"]
            {[ "alice" := "alice.j" ]} _ "alice" "alice.j" _ _ _ _ _).
  - vm_compute. reflexivity.
  - reflexivity.
  - discriminate.
  - apply list_elem_of_here.
  - vm_compute. reflexivity.
Defined.

(** ** The map file *)

Lemma csv_map_short_row rows fmap row :
  row ∈ rows → length row < 2 →
  outcome (csv_map rows fmap) = inl IndexError.
Proof.
  revert fmap. induction rows as [|r rows IH]; intros fmap Hin Hlen.
  { by apply elem_of_nil in Hin. }
  cbn [csv_map]. apply elem_of_cons in Hin as [<-|Hin].
  - destruct row as [|a [|b l]]; simpl in *; [done | done | lia].
  - destruct (r !! 0), (r !! 1); try done. by apply IH.
Qed.

Lemma csv_map_lookup rows fmap m (k : string) :
  outcome (csv_map rows fmap) = inr m →
  match m !! k with
  | Some v =>
    (∃ before row after,
       rows = before ++ row :: after
       ∧ row !! 0 = Some k ∧ row !! 1 = Some v
       ∧ ∀ r, r ∈ after → r !! 0 ≠ Some k)
    ∨ fmap !! k = Some v ∧ ∀ r, r ∈ rows → r !! 0 ≠ Some k
  | None => fmap !! k = None ∧ ∀ r, r ∈ rows → r !! 0 ≠ Some k
  end.
Proof.
  revert fmap. induction rows as [|row rows IH]; intros fmap.
  { intros [= <-]. destruct (fmap !! k); [right |];
      (split; [done |]); intros r Hr; by apply elem_of_nil in Hr. }
  cbn [csv_map].
  destruct (row !! 0) as [k0|] eqn:H0; [| done].
  destruct (row !! 1) as [v0|] eqn:H1; [| done].
  intros Hrun. specialize (IH _ Hrun).
  destruct (m !! k) as [v|].
  - destruct IH as [(before & r & after & -> & ? & ? & ?) | [Hk Hrest]].
    + left. exists (row :: before), r, after. done.
    + destruct (decide (k0 = k)) as [->|Hne].
      * rewrite lookup_insert_eq in Hk. injection Hk as ->.
        left. exists [], row, rows. done.
      * rewrite lookup_insert_ne in Hk by done. right. split; [done |].
        intros r [->|Hr]%elem_of_cons; [congruence | by apply Hrest].
  - destruct IH as [Hk Hrest].
    destruct (decide (k0 = k)) as [->|Hne];
      [by rewrite lookup_insert_eq in Hk |].
    rewrite lookup_insert_ne in Hk by done. split; [done |].
    intros r [->|Hr]%elem_of_cons; [congruence | by apply Hrest].
Qed.

Lemma csv_map_returns rows fmap :
  (∀ row, row ∈ rows → 2 ≤ length row) →
  ∃ m, outcome (csv_map rows fmap) = inr m.
Proof.
  revert fmap. induction rows as [|row rows IH]; intros fmap Hlen.
  { by eexists. }
  cbn [csv_map].
  destruct row as [|a [|b l]];
    [specialize (Hlen [] (list_elem_of_here _ _)); simpl in Hlen; lia
    |specialize (Hlen [a] (list_elem_of_here _ _)); simpl in Hlen; lia |].
  simpl. apply IH. intros r Hr. apply Hlen. by apply list_elem_of_further.
Qed.

(** X12: a csv map file whose rows all have at least two columns loads into
    a map in which a name has the second column of the last row that starts
    with it, and a name that starts no row has no entry; columns after the
    second are ignored. *)
Theorem csv_last_row_wins fs (c : ascii) (f : string) :
  path_exists fs (String c f) = true →
  splitext_ext fs (String c f) = ".csv" →
  (∀ row, row ∈ csv_reader fs (String c f) → 2 ≤ length row) →
  ∃ m,
    outcome (load_map fs (Some (String c f))) = inr m
    ∧ ∀ k,
        match m !! k with
        | Some v =>
          ∃ before row after,
            csv_reader fs (String c f) = before ++ row :: after
            ∧ row !! 0 = Some k ∧ row !! 1 = Some v
            ∧ ∀ r, r ∈ after → r !! 0 ≠ Some k
        | None => ∀ r, r ∈ csv_reader fs (String c f) → r !! 0 ≠ Some k
        end.
Proof.
  intros Hex Hext Hlen. unfold load_map. rewrite Hex, Hext. cbn [negb].
  rewrite bool_decide_eq_true_2 by done.
  destruct (csv_map_returns _ ∅ Hlen) as [m Hm]. exists m.
  split; [done |]. intros k.
  pose proof (csv_map_lookup _ _ _ k Hm) as Hk.
  destruct (m !! k) as [v|].
  - destruct Hk as [Hk | [Hk _]]; [done |]. by rewrite lookup_empty in Hk.
  - by destruct Hk.
Qed.

Lemma csv_last_row_wins_witness :
  ∃ m,
    outcome (load_map (csv_file [["bob"; "bbrown"]; ["amy"; "amy.a"; "x"];
                                 ["bob"; "bob.b"]])
               (Some "map.csv")) = inr m
    ∧ ∀ k,
        match m !! k with
        | Some v =>
          ∃ before row after,
            [["bob"; "bbrown"]; ["amy"; "amy.a"; "x"]; ["bob"; "bob.b"]]
            = before ++ row :: after
            ∧ row !! 0 = Some k ∧ row !! 1 = Some v
            ∧ ∀ r, r ∈ after → r !! 0 ≠ Some k
        | None =>
          ∀ r, r ∈ [["bob"; "bbrown"]; ["amy"; "amy.a"; "x"];
                    ["bob"; "bob.b"]] → r !! 0 ≠ Some k
        end.
Proof.
  apply (csv_last_row_wins
           (csv_file [["bob"; "bbrown"]; ["amy"; "amy.a"; "x"];
                      ["bob"; "bob.b"]]) "m" "ap.csv").
  - reflexivity.
  - reflexivity.
  - intros row Hrow. simpl in Hrow.
    repeat (apply elem_of_cons in Hrow as [->|Hrow]; [simpl; lia |]).
    by apply elem_of_nil in Hrow.
Defined.

(** X13: a csv map file with a row of fewer than two columns makes the batch
    raise [IndexError] before any worker runs, and leaves the map of the
    instance as it was. *)
Theorem batch_short_csv_row fs env self (usernames : list string)
    (c : ascii) (f : string) (row : list string) :
  map_file self = Some (String c f) →
  path_exists fs (String c f) = true →
  splitext_ext fs (String c f) = ".csv" →
  row ∈ csv_reader fs (String c f) →
  length row < 2 →
  find_jira_accounts fs env self usernames = (self, inl IndexError).
Proof.
  intros Hfile Hex Hext Hrow Hlen. unfold find_jira_accounts, load_map.
  rewrite Hfile, Hex, Hext. cbn [negb].
  rewrite bool_decide_eq_true_2 by done.
  by rewrite (csv_map_short_row _ _ _ Hrow Hlen).
Qed.

Lemma batch_short_csv_row_witness :
  find_jira_accounts (csv_file [["bob"; "bbrown"]; ["amy"]])
    env_single_partial (with_map_file self_example (Some "map.csv")) ["bob"]
  = (with_map_file self_example (Some "map.csv"), inl IndexError).
Proof.
  apply (batch_short_csv_row (csv_file [["bob"; "bbrown"]; ["amy"]])
           env_single_partial (with_map_file self_example (Some "map.csv"))
           ["bob"] "m" "ap.csv" ["amy"]).
  - reflexivity.
  - reflexivity.
  - reflexivity.
  - simpl. apply list_elem_of_further, list_elem_of_here.
  - simpl. lia.
Defined.

(** X14: with no map file configured (None or the empty string), or with
    a map file that does not exist, [load_map] returns the empty map
    without opening anything and a batch leaves the instance as it was,
    whatever the number of workers asked for; only the file that does not
    exist is logged, as a warning. *)
Theorem batch_without_map_file fs env self (usernames : list string)
    (max_workers : option Z) :
  truthy (map_file self) = false
  ∨ (∃ f, map_file self = Some f ∧ path_exists fs f = false) →
  fst (find_jira_accounts_workers fs env self usernames max_workers) = self
  ∧ outcome (load_map fs (map_file self)) = inr ∅
  ∧ trace (load_map fs (map_file self))
    = match map_file self with
      | Some (String _ _ as f) => [Log WARNING (MsgMapFileMissing f)]
      | _ => []
      end.
Proof.
  intros Hcase.
  assert (Hload : outcome (load_map fs (map_file self)) = inr ∅
    ∧ trace (load_map fs (map_file self))
      = match map_file self with
        | Some (String _ _ as f) => [Log WARNING (MsgMapFileMissing f)]
        | _ => []
        end).
  { unfold load_map. destruct (map_file self) as [[|c f]|]; try done.
    destruct Hcase as [Hcase | (f' & [= <-] & Hcase)]; [done |].
    by rewrite Hcase. }
  split; [| done]. unfold find_jira_accounts_workers.
  destruct Hload as [-> _]. rewrite (left_id_L ∅ (∪)).
  assert (with_map self (map_ self) = self) as -> by by destruct self.
  destruct max_workers as [n|]; [by destruct (n <=? 0)%Z | done].
Qed.

Lemma batch_without_map_file_witness :
  fst (find_jira_accounts_workers no_file env_single_partial
         (with_map_file self_example (Some "map.json")) ["bob"] None)
  = with_map_file self_example (Some "map.json").
Proof.
  refine (proj1 (batch_without_map_file no_file env_single_partial
                   (with_map_file self_example (Some "map.json")) ["bob"]
                   None _)).
  right. exists "map.json". split; reflexivity.
Defined.

(** ** The credentials in [jira_kwargs] *)

(** X15: the dict [jira_kwargs] that the [jira] property builds, before the
    extra keyword arguments are added to the call, for an instance the
    constructor accepted. It has exactly one credentials entry: the
    basic-auth pair of the user and password given to the constructor, both
    not empty, whenever a password was given (a token given beside them is
    left out); otherwise the token, not empty. The server is the
    configured url. *)
Theorem jira_kwargs_credentials (kw : kwargs) (self : LDAP2JiraUserMap) :
  __init__ kw = inr self →
  options_server (build_jira_kwargs self) = kw_jira_url kw
  ∧ match auth (build_jira_kwargs self) with
    | basic_auth user password =>
      user = kw_jira_user kw ∧ password = kw_jira_password kw
      ∧ truthy user = true ∧ truthy password = true
    | token_auth token =>
      token = kw_jira_auth_token kw ∧ truthy token = true
      ∧ truthy (kw_jira_user kw) = false
      ∧ truthy (kw_jira_password kw) = false
    end.
Proof.
  unfold __init__, build_jira_kwargs.
  destruct (truthy (kw_jira_user kw)) eqn:Hu,
    (truthy (kw_jira_password kw)) eqn:Hp,
    (truthy (kw_jira_auth_token kw)) eqn:Ht; simpl; try done;
    intros [= <-]; simpl; by rewrite Hp.
Qed.

Lemma jira_kwargs_credentials_witness :
  options_server (build_jira_kwargs self_example)
  = "https://issues.corp.com".
Proof.
  refine (proj1 (jira_kwargs_credentials kw_example self_example _)).
  reflexivity.
Defined.

(** ** The fields asked from the directory *)

Lemma partial_match_name_value self ldap_account jira_account :
  outcome (_ldap_jira_match self ldap_account jira_account)
  = inr PARTIAL_MATCH →
  ∃ v, v ∈ ldap_values ldap_account (ldap_fields_name self).
Proof.
  unfold _ldap_jira_match.
  destruct (name jira_account) as [n|]; [| done].
  destruct (emailAddress jira_account) as [e|]; [| done].
  destruct (displayName jira_account) as [d|]; [| done].
  rewrite !outcome_bind. cbn [outcome log emit snd].
  destruct (endswith e _); [| done].
  destruct (_ || _); [done |].
  case_bool_decide as Hnames; [| done]. intros _.
  apply set_choose_L in Hnames as [x Hx]. exists x. set_solver.
Qed.

(** X16: the directory is asked for the user name, mail and search fields,
    not for the name fields. For a record that holds only fields that were
    asked for, on an instance whose name fields are not among them, no
    account scores a partial match. *)
Theorem name_fields_not_requested self (ldap_account : gmap string string)
    (jira_account : jira_user) :
  (∀ f, f ∈ ldap_fields_name self → f ∉ return_fields self) →
  dom ldap_account ⊆ return_fields self →
  outcome (_ldap_jira_match self ldap_account jira_account)
  ≠ inr PARTIAL_MATCH.
Proof.
  intros Hnames Hdom Hscore.
  apply partial_match_name_value in Hscore as [v Hv].
  apply elem_of_ldap_values in Hv as (f & Hf & Hv).
  apply (Hnames f Hf), Hdom, elem_of_dom. by eexists.
Qed.

Lemma name_fields_not_requested_witness :
  outcome (_ldap_jira_match self_narrow_search
             {[ "uid" := "bob"; "mail" := "bob@corp.com" ]}
             (account "bbrown" "bbrown@corp.com" "Bob Brown"))
  ≠ inr PARTIAL_MATCH.
Proof.
  apply (name_fields_not_requested self_narrow_search
           {[ "uid" := "bob"; "mail" := "bob@corp.com" ]}
           (account "bbrown" "bbrown@corp.com" "Bob Brown")).
  - intros f Hf. apply list_elem_of_singleton in Hf as ->.
    vm_compute. intros H. discriminate H.
  - apply (bool_decide_unpack _). vm_compute. exact I.
Defined.

(** X17: a second batch on the instance the first one left, with the same
    files, adapters and names, leaves the instance as it is and gives the
    same result as the first. *)
Theorem batch_idempotent fs env self (usernames : list string) :
  find_jira_accounts fs env
    (fst (find_jira_accounts fs env self usernames)) usernames
  = find_jira_accounts fs env self usernames.
Proof.
  unfold find_jira_accounts.
  destruct (outcome (load_map fs (map_file self))) as [e|loaded] eqn:Hload.
  - cbn [fst]. by rewrite Hload.
  - cbn [fst map_file map_ with_map]. rewrite Hload.
    cbn [with_map map_ jira_url jira_user_ jira_password jira_auth_token
         ldap_url ldap_base ldap_query_fields_username ldap_fields_username
         ldap_fields_mail ldap_fields_name ldap_fields_jira_search
         email_domain map_file].
    rewrite (assoc_L (∪)), (idemp_L (∪)). done.
Qed.

(** ** The locals of the loops *)

Lemma candidates_loop_locals self ldap_account single accounts st st' :
  NoDup (partial_single_matches st) →
  (∀ p, p ∈ partial_single_matches st → p ∈ jira_account_usernames st) →
  outcome (candidates_loop self ldap_account single accounts st) = inr st' →
  NoDup (partial_single_matches st')
  ∧ (∀ p, p ∈ partial_single_matches st' → p ∈ jira_account_usernames st')
  ∧ (∀ n, n ∈ jira_account_usernames st' →
          n ∈ jira_account_usernames st
          ∨ ∃ acc, acc ∈ accounts ∧ name acc = Some n).
Proof.
  revert st. induction accounts as [|acc accounts IH]; intros st Hnd Hsub.
  { intros [= <-]. auto. }
  cbn [candidates_loop]. destruct (name acc) as [n|] eqn:Hn; [| done].
  case_match.
  { intros Hrun. destruct (IH st Hnd Hsub Hrun) as (? & ? & Hseen).
    split; [done |]. split; [done |]. intros x Hx.
    destruct (Hseen x Hx) as [|(a & ? & ?)]; [by left |].
    right. exists a. by rewrite elem_of_cons; auto. }
  rewrite outcome_bind.
  destruct (_ldap_jira_match_returns self ldap_account acc)
    as (z & -> & _).
  destruct (z =? MATCH)%Z.
  { intros [= <-]. cbn [partial_single_matches jira_account_usernames].
    split; [done |].
    split; [intros p Hp; apply elem_of_union; left; by apply Hsub |].
    intros x [Hx|Hx%elem_of_singleton]%elem_of_union; [by left |].
    subst x. right. exists acc. by rewrite elem_of_cons; auto. }
  intros Hrun.
  match type of Hrun with
  | outcome (candidates_loop _ _ _ _ ?s) = _ =>
    destruct (IH s) as (? & ? & Hseen); [| | exact Hrun |]
  end; cbn [partial_single_matches jira_account_usernames] in *.
  - destruct ((z =? PARTIAL_MATCH)%Z && single); [| done].
    case_bool_decide; [done |].
    apply NoDup_app. split; [done |]. split; [| apply NoDup_singleton].
    intros x Hx Hx'%list_elem_of_singleton. by subst x.
  - intros p. destruct ((z =? PARTIAL_MATCH)%Z && single); [| set_solver].
    case_bool_decide; [set_solver |].
    intros [?|Hp%list_elem_of_singleton]%elem_of_app; set_solver.
  - split; [done |]. split; [done |]. intros x Hx.
    destruct (Hseen x Hx) as [[?|Hx'%elem_of_singleton]%elem_of_union
                             |(a & ? & ?)].
    + by left.
    + subst x. right. exists acc. by rewrite elem_of_cons; auto.
    + right. exists a. by rewrite elem_of_cons; auto.
Qed.

(** X18: what the loops keep. When the loops return, the list of single
    partial matches has no account twice, each of its accounts is in the set
    of accounts seen, and every account seen was returned by the search for
    one of the search values. *)
Theorem loops_keep_locals env self (ldap_account : gmap string string)
    (jira_queries : list string) (st st' : locals) :
  NoDup (partial_single_matches st) →
  (∀ p, p ∈ partial_single_matches st → p ∈ jira_account_usernames st) →
  outcome (seed_loop env self ldap_account jira_queries st) = inr st' →
  NoDup (partial_single_matches st')
  ∧ (∀ p, p ∈ partial_single_matches st' → p ∈ jira_account_usernames st')
  ∧ (∀ n, n ∈ jira_account_usernames st' →
          n ∈ jira_account_usernames st
          ∨ ∃ query acc, query ∈ jira_queries
                         ∧ acc ∈ JIRA_search_users env query 10
                         ∧ name acc = Some n).
Proof.
  revert st. induction jira_queries as [|query rest IH]; intros st Hnd Hsub.
  { intros [= <-]. auto. }
  cbn [seed_loop]. rewrite outcome_bind.
  cbn [jira_search_user outcome snd bind log emit ret fst].
  rewrite outcome_bind.
  destruct (outcome (candidates_loop _ _ _ _ st)) as [e|st1] eqn:Hinner;
    [done |].
  destruct (candidates_loop_locals _ _ _ _ _ _ Hnd Hsub Hinner)
    as (Hnd1 & Hsub1 & Hseen1).
  assert (Hlift : ∀ n, n ∈ jira_account_usernames st1 →
    n ∈ jira_account_usernames st
    ∨ ∃ q acc, q ∈ query :: rest ∧ acc ∈ JIRA_search_users env q 10
               ∧ name acc = Some n).
  { intros n Hn. destruct (Hseen1 n Hn) as [|(a & ? & ?)]; [by left |].
    right. exists query, a. by rewrite elem_of_cons; auto. }
  case_bool_decide.
  - intros [= <-]. auto.
  - intros Hrun. destruct (IH st1 Hnd1 Hsub1 Hrun) as (? & ? & Hseen).
    split; [done |]. split; [done |]. intros n Hn.
    destruct (Hseen n Hn) as [Hn1|(q & a & ? & ? & ?)]; [by apply Hlift |].
    right. exists q, a. by rewrite elem_of_cons; auto.
Qed.

Lemma loops_keep_locals_witness :
  NoDup (partial_single_matches
           {| jira_account_usernames := {[ "bbrown" ]};
              partial_single_matches := ["bbrown"];
              l_user_dict := new_user_dict "bob" |}).
Proof.
  refine (proj1 (loops_keep_locals env_single_partial self_example
                   bob_record bob_queries (new_locals (new_user_dict "bob"))
                   _ _ _ _)).
  - constructor.
  - intros p Hp. by apply elem_of_nil in Hp.
  - vm_compute. reflexivity.
Defined.

(** The instance of the lemma on a recorded match: bob is matched and
    bbrown is reported. *)
Lemma _process_username_match_recorded_witness :
  outcome (_process_username env_partial_then_match self_example "bob")
  = inr {| ud_username := Some "bob"; ud_status := Some "found";
           ud_jira_account := Some "bbrown"; ud_jira_results := None |}.
Proof.
  apply (_process_username_match_recorded env_partial_then_match
           self_example "bob" bob_record
           {| jira_account_usernames := {[ "bbrown" ]} ∪ {[ "bob" ]};
              partial_single_matches := ["bbrown"];
              l_user_dict :=
                with_jira_account
                  (with_status (new_user_dict "bob") "found") "bob" |}
           "bob").
  - discriminate.
  - reflexivity.
  - vm_compute. reflexivity.
  - vm_compute. reflexivity.
  - reflexivity.
Defined.
